(** * Part Analysis Tool: the server's aggregation pipeline

    A shallow embedding of the Express server of the repository (the
    file with the routes [/api/bulk-upload], [/api/bulk-process],
    [/api/bulk-export/:format], [/api/alternatives], [/api/compare] and
    [/test-ti/:partNumber] and the helpers [googleSearch] and
    [scrapeTICrossReference]), followed by the properties its
    specification states about it and by further properties read off
    the code.

    Conventions.
    - A JavaScript string is the list of its UTF-16 code units.
    - Every awaited call into a library (puppeteer, node-fetch, fs) is
      an external step: its outcome is read from an environment record
      and the call is appended to a trace.
    - A JavaScript exception is a value of type [thrown]; [try], [catch]
      and [finally] are combinators of the monad [M]. *)

From Stdlib Require Import List NArith Ascii String Bool Arith Lia.
Import ListNotations.

Set Implicit Arguments.

Local Open Scope N_scope.

(* ------------------------------------------------------------------ *)
(** * JavaScript strings *)
(* ------------------------------------------------------------------ *)

Module JS.

Definition js_string := list N.

(** A string literal of the source, as code units. *)
Definition lit (s : string) : js_string :=
  map N_of_ascii (list_ascii_of_string s).

Definition string_eqb (a b : js_string) : bool :=
  if list_eq_dec N.eq_dec a b then true else false.

(** [ToBoolean] on a string: only the empty string is falsy. *)
Definition truthy (s : js_string) : bool :=
  match s with [] => false | _ :: _ => true end.

(** [a || b] on strings. *)
Definition or_else (a b : js_string) : js_string :=
  if truthy a then a else b.

(** ECMAScript WhiteSpace and LineTerminator code units: the set that
    [String.prototype.trim] strips and that [\s] matches. *)
Definition isWhiteSpace (c : N) : bool :=
  ((9 <=? c) && (c <=? 13))            (* TAB LF VT FF CR *)
  || (c =? 32) || (c =? 160)           (* SP, NBSP *)
  || (c =? 5760)                       (* U+1680 *)
  || ((8192 <=? c) && (c <=? 8202))    (* U+2000 .. U+200A *)
  || (c =? 8232) || (c =? 8233)        (* LS, PS *)
  || (c =? 8239) || (c =? 8287)        (* U+202F, U+205F *)
  || (c =? 12288) || (c =? 65279).     (* U+3000, U+FEFF *)

Fixpoint trimStart (s : js_string) : js_string :=
  match s with
  | c :: s' => if isWhiteSpace c then trimStart s' else s
  | [] => []
  end.

Definition trimEnd (s : js_string) : js_string := rev (trimStart (rev s)).

Definition trim (s : js_string) : js_string := trimEnd (trimStart s).

Fixpoint startsWith (s prefix : js_string) : bool :=
  match prefix, s with
  | [], _ => true
  | p :: prefix', c :: s' => (p =? c) && startsWith s' prefix'
  | _ :: _, [] => false
  end.

(** [s.includes(sub)]: [sub] occurs in [s] at some position. *)
Fixpoint includes (s sub : js_string) : bool :=
  startsWith s sub ||
  match s with
  | [] => false
  | _ :: s' => includes s' sub
  end.

(** [s.split(sep)] for a one-unit separator. *)
Fixpoint split (sep : N) (s : js_string) : list js_string :=
  match s with
  | [] => [[]]
  | c :: s' =>
      if c =? sep then [] :: split sep s'
      else match split sep s' with
           | cur :: rest => (c :: cur) :: rest
           | [] => [[c]]
           end
  end.

(** [arr.slice(0, n)]. *)
Definition slice0 {A} (n : nat) (l : list A) : list A := firstn n l.

End JS.

Import JS.

(* ------------------------------------------------------------------ *)
(** * Regular expressions of the source

    The three patterns of the server are sequences of quantified
    character classes, anchored at the start.  [exec] follows the
    backtracking order of ECMAScript: a greedy quantifier tries the
    longest repetition first, a lazy one the shortest, and the first
    complete match wins. *)
(* ------------------------------------------------------------------ *)

Module Regex.

Inductive quantifier := One | Star | Plus | PlusLazy.

Record atom := Atom {
  class : N -> bool;
  quant : quantifier;
  capture : bool
}.

Section Repeat.
Variable R : Type.
Variable p : N -> bool.
(** continuation: text matched by this atom, then the rest of the input *)
Variable k : js_string -> js_string -> option R.

(** zero or more, longest first; [acc] is what the atom has matched *)
Fixpoint greedy (acc s : js_string) : option R :=
  match s with
  | c :: s' =>
      if p c then
        match greedy (acc ++ [c]) s' with
        | Some r => Some r
        | None => k acc s
        end
      else k acc s
  | [] => k acc s
  end.

(** zero or more, shortest first *)
Fixpoint lazy (acc s : js_string) : option R :=
  match k acc s with
  | Some r => Some r
  | None =>
      match s with
      | c :: s' => if p c then lazy (acc ++ [c]) s' else None
      | [] => None
      end
  end.
End Repeat.

(** Match the atoms [r] against a prefix of [s]; with [toEnd] the
    pattern ends in [$] and the whole input must be consumed.  The
    result is the list of captured groups, in order. *)
Fixpoint exec (r : list atom) (toEnd : bool) (s : js_string)
              (groups : list js_string) : option (list js_string) :=
  match r with
  | [] =>
      if toEnd then match s with [] => Some groups | _ :: _ => None end
      else Some groups
  | a :: r' =>
      let k := fun matched rest =>
        exec r' toEnd rest
             (if capture a then groups ++ [matched] else groups) in
      match quant a with
      | One =>
          match s with
          | c :: s' => if class a c then k [c] s' else None
          | [] => None
          end
      | Star => greedy (class a) k [] s
      | Plus =>
          match s with
          | c :: s' => if class a c then greedy (class a) k [c] s' else None
          | [] => None
          end
      | PlusLazy =>
          match s with
          | c :: s' => if class a c then lazy (class a) k [c] s' else None
          | [] => None
          end
      end
  end.

(** Character classes. *)
Definition digit (c : N) : bool := (48 <=? c) && (c <=? 57).            (* \d *)
Definition upper (c : N) : bool := (65 <=? c) && (c <=? 90).            (* A-Z *)
Definition upperDigit (c : N) : bool := upper c || digit c.             (* [A-Z0-9] *)
Definition partChar (c : N) : bool :=                                   (* [A-Z0-9\-\.\/] *)
  upper c || digit c || (c =? 45) || (c =? 46) || (c =? 47).
Definition space (c : N) : bool := isWhiteSpace c.                      (* \s *)
Definition dot (c : N) : bool :=                                        (* . *)
  negb ((c =? 10) || (c =? 13) || (c =? 8232) || (c =? 8233)).
Definition char (x : N) (c : N) : bool := c =? x.

(** [/^\d+\.\s+[A-Z0-9]/] *)
Definition numberedLine : list atom :=
  [ Atom digit Plus false; Atom (char 46) One false;
    Atom space Plus false; Atom upperDigit One false ].

(** [/^\d+\.\s+([A-Z0-9\-\.\/]+)\s*-\s*(.+?)\s*-\s*(.+)$/] *)
Definition threeFields : list atom :=
  [ Atom digit Plus false; Atom (char 46) One false;
    Atom space Plus false; Atom partChar Plus true;
    Atom space Star false; Atom (char 45) One false; Atom space Star false;
    Atom dot PlusLazy true;
    Atom space Star false; Atom (char 45) One false; Atom space Star false;
    Atom dot Plus true ].

(** [re.test(s)] *)
Definition test (r : list atom) (s : js_string) : bool :=
  match exec r false s [] with Some _ => true | None => false end.

(** [s.match(re)] for a pattern ending in [$]: the captured groups. *)
Definition matchAll (r : list atom) (s : js_string) : option (list js_string) :=
  exec r true s [].

End Regex.

(* ------------------------------------------------------------------ *)
(** * Parsing the model's reply (batch mode) *)
(* ------------------------------------------------------------------ *)

Record SynthesizedAlternative := {
  sa_partNumber : js_string;
  sa_description : js_string;
  sa_manufacturer : js_string
}.

(** The callback of [.map(line => ...)]: [null] is [None]. *)
Definition parseLine (line : js_string) : option SynthesizedAlternative :=
  match Regex.matchAll Regex.threeFields line with
  | Some [m1; m2; m3] =>
      Some {| sa_partNumber := trim m1;
              sa_description := trim m2;
              sa_manufacturer := trim m3 |}
  | _ => None
  end.

Fixpoint dropNull {A} (l : list (option A)) : list A :=
  match l with
  | [] => []
  | Some a :: l' => a :: dropNull l'
  | None :: l' => dropNull l'
  end.

(** [content.split('\n').filter(line => line.trim())] *)
Definition replyLines (content : js_string) : list js_string :=
  filter (fun line => truthy (trim line)) (split 10 content).

(** The numbered lines kept by the first [.filter]. *)
Definition numberedLines (content : js_string) : list js_string :=
  filter (fun line => Regex.test Regex.numberedLine (trim line))
         (replyLines content).

Definition parseAiAlternatives (content : js_string) : list SynthesizedAlternative :=
  slice0 3%nat (dropNull (map parseLine (numberedLines content))).

(* ------------------------------------------------------------------ *)
(** * Effects: exceptions, the trace of external calls *)
(* ------------------------------------------------------------------ *)

(** A thrown value.  JavaScript lets any value be thrown; the handlers
    of the server only ever read [.message] off it, which gives a string
    or [undefined] ([None]) on every value except [null] and
    [undefined], where the read itself raises a [TypeError]. *)
Inductive thrown :=
| Exn (message : option js_string)
| Nullish.

Definition Error (message : js_string) : thrown := Exn (Some message).

(** A [TypeError] raised by the runtime, with the engine's message. *)
Definition TypeError (message : string) : thrown := Exn (Some (lit message)).

Record EvidenceItem := {
  ev_title : option js_string;
  ev_link : option js_string;
  ev_snippet : js_string
}.

Record CrossReferenceAlternative := {
  partNumber : js_string;
  matchType : js_string;
  href : js_string;
  title : js_string
}.

(** The calls that leave the process. *)
Inductive event :=
| Launch                                  (* puppeteer.launch *)
| NewPage                                 (* browser.newPage *)
| SetUserAgent                            (* page.setUserAgent *)
| Goto (part : js_string)                 (* page.goto(tiUrl) *)
| WaitForSelector                         (* page.waitForSelector *)
| EvalAnchors                             (* page.$$eval *)
| Close                                   (* browser.close *)
| GoogleFetch (part : js_string)          (* fetch(googleapis...) *)
| ReadFile                                (* XLSX.readFile *)
| OpenAIFetch (part : js_string)          (* fetch(api.openai.com...); the *)
    (searchItems : list EvidenceItem)     (* prompt is built from these    *)
    (tiAlternatives : list CrossReferenceAlternative)
| Unlink                                  (* fs.unlinkSync *)
| OpenAICompare (partA partB : js_string). (* fetch(api.openai.com...), comparison *)

(** The mutable state a request sees: the calls made so far, and the
    local [browser] of the running [scrapeTICrossReference]. *)
Record state := {
  trace : list event;
  browser : bool
}.

Definition initial : state := {| trace := []; browser := false |}.

Inductive completion (A : Type) :=
| Normal (a : A)
| Throw (e : thrown).
Arguments Normal {A} a.
Arguments Throw {A} e.

Definition M (A : Type) := state -> state * completion A.

Definition ret {A} (a : A) : M A := fun s => (s, Normal a).

Definition throw {A} (e : thrown) : M A := fun s => (s, Throw e).

Definition bind {A B} (m : M A) (f : A -> M B) : M B :=
  fun s => match m s with
           | (s', Normal a) => f a s'
           | (s', Throw e) => (s', Throw e)
           end.

(** [try { m } catch (e) { h e }] *)
Definition try_catch {A} (m : M A) (h : thrown -> M A) : M A :=
  fun s => match m s with
           | (s', Normal a) => (s', Normal a)
           | (s', Throw e) => h e s'
           end.

(** [try { m } finally { f }]: [f] runs after [m] however [m] completes;
    the completion of [m] stands unless [f] itself throws. *)
Definition try_finally {A} (m : M A) (f : M unit) : M A :=
  fun s => match m s with
           | (s', c) =>
               match f s' with
               | (s'', Normal _) => (s'', c)
               | (s'', Throw e) => (s'', Throw e)
               end
           end.

Declare Scope js_scope.
Delimit Scope js_scope with js.
Notation "x <- m ;; k" := (bind m (fun x => k))
  (at level 61, m at next level, right associativity) : js_scope.
Notation "m ;; k" := (bind m (fun _ => k))
  (at level 61, right associativity) : js_scope.
Local Open Scope js_scope.

(** An external call: logged, then resolved or rejected as the
    environment says. *)
Definition call {A} (ev : event) (outcome : completion A) : M A :=
  fun s => ({| trace := trace s ++ [ev]; browser := browser s |}, outcome).

Definition set_browser (b : bool) : M unit :=
  fun s => ({| trace := trace s; browser := b |}, Normal tt).

Definition get_browser : M bool := fun s => (s, Normal (browser s)).

(** [e.message] *)
Definition message_of (e : thrown) : M (option js_string) :=
  match e with
  | Exn m => ret m
  | Nullish => throw (TypeError "Cannot read properties of null (reading 'message')")
  end.

(** [console.warn(..., e.message)] and the like: only the read of
    [.message] can matter. *)
Definition log_message (e : thrown) : M unit := message_of e ;; ret tt.

(* ------------------------------------------------------------------ *)
(** * The document seen by the extractor *)
(* ------------------------------------------------------------------ *)

(** A reference to an element on the ancestor chain of an anchor, or
    [null]: the element's [textContent], whether it is [document.body],
    and its [parentElement] ([null] above the root). *)
Inductive element :=
| null
| Element (textContent : js_string) (isBody : bool) (parentElement : element).

(** An element matched by [a[href*="/product/"]]. *)
Record anchor := {
  a_textContent : js_string;
  a_href : js_string;
  a_title : js_string;
  a_parentElement : element
}.

(** What one run of puppeteer does: each call resolves ([inr]) or
    rejects ([inl]). *)
Record PuppeteerEnv := {
  launch_result : thrown + unit;
  newPage_result : thrown + unit;
  setUserAgent_result : thrown + unit;
  goto_result : thrown + unit;
  waitForSelector_result : thrown + unit;
  eval_result : thrown + list anchor;     (* the matched anchors, in document order *)
  close_result : thrown + unit
}.

Definition outcome {A} (r : thrown + A) : completion A :=
  match r with inl e => Throw e | inr a => Normal a end.

(** What the search endpoint answers. *)
Inductive raw_item :=
| ItemNull                                              (* a [null] entry *)
| Item (title link snippet : option js_string).

Inductive GoogleData :=
| DataNull                                              (* the body is [null] *)
| Data (items : option (list raw_item)).                (* [data.items] when an array *)

Record GoogleResponse := {
  g_ok : bool;
  g_status : js_string;                                 (* [resp.status], printed *)
  g_text : thrown + js_string;                          (* [resp.text()] *)
  g_json : thrown + GoogleData                          (* [resp.json()] *)
}.

Record GoogleEnv := {
  GOOGLE_API_KEY : option js_string;
  GOOGLE_CX : option js_string;
  google_fetch : thrown + GoogleResponse
}.

(** What the model endpoint answers. *)
Inductive Reply :=
| ReplyMalformed         (* [data.choices[0].message.content] cannot be read *)
| ReplyNoText            (* [content] is [null] or [undefined] *)
| ReplyText (content : js_string).

Record OpenAIResponse := {
  ai_ok : bool;
  ai_json : thrown + Reply
}.

Record OpenAIEnv := {
  openai_fetch : thrown + OpenAIResponse
}.

(** The outside world during the processing of one part number. *)
Record PartEnv := {
  puppeteer : PuppeteerEnv;
  google : GoogleEnv;
  openai : OpenAIEnv
}.

(** ** Records of the batch *)

Record PartResult := {
  originalPart : js_string;
  tiAlternatives : list CrossReferenceAlternative;
  aiAlternatives : list SynthesizedAlternative;
  status : js_string;
  error : option js_string          (* [None]: no [error] key, or [undefined] *)
}.

Record PartError := {
  pe_partNumber : js_string;
  pe_error : option js_string
}.

Record BatchSummary := {
  success : bool;
  results : list PartResult;
  errors : list PartError;
  totalProcessed : nat;
  successCount : nat;
  errorCount : nat
}.

Record UploadResult := {
  up_success : bool;
  up_partNumbers : list js_string;
  up_count : nat
}.

(** An HTTP answer: [res.json(body)], or [res.status(n).json({error})]. *)
Inductive response (A : Type) :=
| Ok (body : A)
| Failed (code : nat) (error : js_string).
Arguments Ok {A} body.
Arguments Failed {A} code error.

(** [req.body.partNumbers] *)
Inductive partNumbersField :=
| Missing                            (* [undefined], [null] or another falsy value *)
| NotArray                           (* a truthy value that is no array *)
| Array (partNumbers : list js_string).

(** A cell of the uploaded sheet, as far as the upload route looks. *)
Inductive cell :=
| CellString (s : js_string)
| CellOther.                         (* a number, a boolean, a hole *)

Record UploadEnv := {
  file : bool;                                   (* [req.file] is set *)
  sheet : thrown + list (list cell);             (* [readFile] .. [sheet_to_json] *)
  unlink_result : thrown + unit;                 (* [unlinkSync] after the checks *)
  cleanup_result : thrown + unit                 (* [unlinkSync] in the [catch] *)
}.

(** What the single lookup and the comparison read in the answer of
    the model endpoint. *)
Inductive ChatContent :=
| NoChoices                  (* no [choices[0].message] *)
| NoContent                  (* the message has no [content] *)
| ContentText (content : js_string).

Inductive ChatBody :=
| BodyNull                                        (* the body is [null] *)
| Body (errorMessage : option js_string)          (* [body.error?.message] *)
       (reply : ChatContent).

Record ChatResponse := {
  chat_ok : bool;
  chat_status : nat;                              (* [response.status] *)
  chat_statusText : js_string;
  chat_json : thrown + ChatBody                   (* [response.json()] *)
}.

Record LookupEnv := {
  lk_OPENAI_API_KEY : option js_string;
  lk_google : GoogleEnv;
  lk_puppeteer : PuppeteerEnv;
  lk_chat : thrown + ChatResponse
}.

Record CompareEnv := {
  cmp_OPENAI_API_KEY : option js_string;
  cmp_chat : thrown + ChatResponse
}.

Record AlternativesResult := {
  alt_alternatives : js_string;                   (* the HTML *)
  alt_raw : js_string;                            (* the markdown *)
  alt_searchResults : list EvidenceItem;
  alt_tiAlternatives : list CrossReferenceAlternative
}.



(* ------------------------------------------------------------------ *)
(** * The server *)
(* ------------------------------------------------------------------ *)

Section Server.

(** [String.prototype.toLowerCase], whose Unicode case tables are the
    engine's. *)
Variable toLowerCase : js_string -> js_string.

(** ** scrapeTICrossReference *)

(** The predicate of [.filter(el => ...)]. *)
Definition isPartLink (el : anchor) : bool :=
  let text := trim (a_textContent el) in
  let href := a_href el in
  truthy text &&
  (3 <? List.length text)%nat &&
  (List.length text <? 20)%nat &&
  includes href (lit "/product/") &&
  negb (includes text (lit "Request")) &&
  negb (includes text (lit "samples")) &&
  negb (includes text (lit "Close")) &&
  negb (includes text (lit "Menu")) &&
  negb (includes text (lit "Previous")) &&
  negb (includes text (lit "Language")) &&
  negb (includes text (lit "My cart")) &&
  negb (includes text (lit "Search")) &&
  negb (includes text (lit "Home")) &&
  negb (includes text (lit "Cross-reference")).

(** The [while] loop of [.map(el => ...)], started at
    [currentElement]; its value is the final [matchType]. *)
Fixpoint inferMatchType (currentElement : element) : js_string :=
  match currentElement with
  | null => lit "Cross-Reference Match"
  | Element textContent isBody parentElement =>
      if isBody then lit "Cross-Reference Match"
      else
        let parentText := toLowerCase textContent in
        if includes parentText (lit "drop-in replacement")
           || includes parentText (lit "drop in replacement")
        then lit "Drop-in replacement"
        else if includes parentText (lit "exact match")
        then lit "Exact Match"
        else if includes parentText (lit "same functionality")
        then lit "Same Functionality"
        else if includes parentText (lit "pin compatible")
        then lit "Pin Compatible"
        else if includes parentText (lit "functional equivalent")
        then lit "Functional Equivalent"
        else if includes parentText (lit "compatible")
        then lit "Compatible"
        else if includes parentText (lit "replacement")
        then lit "Replacement"
        else inferMatchType parentElement
  end.

(** The callback of [.map(el => ...)]. *)
Definition toAlternative (el : anchor) : CrossReferenceAlternative :=
  {| partNumber := trim (a_textContent el);
     matchType := inferMatchType (a_parentElement el);
     href := a_href el;
     title := or_else (a_title el) (trim (a_textContent el)) |}.

(** The function passed to [page.$$eval]. *)
Definition extractAlternatives (elements : list anchor)
  : list CrossReferenceAlternative :=
  map toAlternative (filter isPartLink elements).

Definition scrapeTICrossReference (env : PuppeteerEnv) (part : js_string)
  : M (list CrossReferenceAlternative) :=
  set_browser false ;;                                   (* let browser; *)
  try_finally
    (try_catch
       (call Launch (outcome (launch_result env)) ;;
        set_browser true ;;
        call NewPage (outcome (newPage_result env)) ;;
        call SetUserAgent (outcome (setUserAgent_result env)) ;;
        call (Goto part) (outcome (goto_result env)) ;;
        found <- try_catch
                   (call WaitForSelector (outcome (waitForSelector_result env)) ;;
                    ret true)
                   (fun error => log_message error ;; ret false) ;;
        if found : bool then
          elements <- call EvalAnchors (outcome (eval_result env)) ;;
          ret (extractAlternatives elements)
        else ret [])                                     (* return []; *)
       (fun error => log_message error ;; ret []))
    (b <- get_browser ;;
     if b : bool then call Close (outcome (close_result env)) else ret tt).


(** ** googleSearch *)

Definition configured (v : option js_string) : bool :=
  match v with Some k => truthy k | None => false end.

Definition highSurrogate (c : N) : bool := (55296 <=? c) && (c <=? 56319).
Definition lowSurrogate (c : N) : bool := (56320 <=? c) && (c <=? 57343).

(** [encodeURIComponent] raises a [URIError] on a lone surrogate. *)
Fixpoint wellFormed (s : js_string) : bool :=
  match s with
  | [] => true
  | c :: s' =>
      if highSurrogate c then
        match s' with
        | d :: s'' => lowSurrogate d && wellFormed s''
        | [] => false
        end
      else negb (lowSurrogate c) && wellFormed s'
  end.

Definition toEvidence (it : raw_item) : M EvidenceItem :=
  match it with
  | ItemNull => throw (TypeError "Cannot read properties of null (reading 'title')")
  | Item t l sn =>
      ret {| ev_title := t; ev_link := l;
             ev_snippet := match sn with Some x => or_else x [] | None => [] end |}
  end.

Fixpoint mapM {A B} (f : A -> M B) (l : list A) : M (list B) :=
  match l with
  | [] => ret []
  | a :: l' => b <- f a ;; bs <- mapM f l' ;; ret (b :: bs)
  end.

Definition googleSearch (env : GoogleEnv) (part : js_string)
  : M (list EvidenceItem) :=
  if negb (configured (GOOGLE_API_KEY env)) || negb (configured (GOOGLE_CX env))
  then throw (Error (lit "Server is not configured with GOOGLE_API_KEY and GOOGLE_CX"))
  else if negb (wellFormed part)
  then throw (Exn (Some (lit "URI malformed")))
  else
    resp <- call (GoogleFetch part) (outcome (google_fetch env)) ;;
    if negb (g_ok resp) then
      let text := match g_text resp with inr t => t | inl _ => [] end in
      throw (Error (lit "Google Search API error: " ++ g_status resp
                      ++ lit " " ++ text))
    else
      data <- (fun s => (s, outcome (g_json resp))) ;;
      match data with
      | DataNull => throw (TypeError "Cannot read properties of null (reading 'items')")
      | Data items =>
          mapM toEvidence (match items with Some l => l | None => [] end)
      end.

(** ** POST /api/bulk-process *)

(** The synthesis step of one part: the body of the third inner [try]. *)
Definition synthesize (env : OpenAIEnv) (part : js_string)
    (searchItems : list EvidenceItem)
    (ti : list CrossReferenceAlternative) : M (list SynthesizedAlternative) :=
  response <- call (OpenAIFetch part (slice0 6 searchItems) ti)
                   (outcome (openai_fetch env)) ;;
  if ai_ok response then
    data <- (fun s => (s, outcome (ai_json response))) ;;
    match data with
    | ReplyMalformed =>
        throw (TypeError "Cannot read properties of undefined (reading '0')")
    | ReplyNoText =>
        throw (TypeError "Cannot read properties of null (reading 'split')")
    | ReplyText content => ret (parseAiAlternatives content)
    end
  else ret [].                                   (* aiAlternatives stays [] *)

(** One turn of the [for] loop; [acc] is the pair of the arrays
    [results] and [errors]. *)
Definition processPart (env : PartEnv) (part : js_string)
    (acc : list PartResult * list PartError)
  : M (list PartResult * list PartError) :=
  try_catch
    (ti <- try_catch (scrapeTICrossReference (puppeteer env) part)
                     (fun tiError => log_message tiError ;; ret []) ;;
     searchItems <- try_catch (googleSearch (google env) part)
                     (fun searchError => log_message searchError ;; ret []) ;;
     ai <- try_catch (synthesize (openai env) part searchItems ti)
                     (fun aiError => log_message aiError ;; ret []) ;;
     ret (fst acc ++ [ {| originalPart := part;
                          tiAlternatives := slice0 1 ti;
                          aiAlternatives := slice0 3 ai;
                          status := lit "success";
                          error := None |} ],
          snd acc))
    (fun err =>
       m <- message_of err ;;
       let errors' := snd acc ++ [ {| pe_partNumber := part; pe_error := m |} ] in
       m' <- message_of err ;;
       ret (fst acc ++ [ {| originalPart := part;
                            tiAlternatives := [];
                            aiAlternatives := [];
                            status := lit "error";
                            error := m' |} ],
            errors')).

Fixpoint forEachPart (env : nat -> PartEnv) (i : nat) (parts : list js_string)
    (acc : list PartResult * list PartError)
  : M (list PartResult * list PartError) :=
  match parts with
  | [] => ret acc
  | part :: rest =>
      acc' <- processPart (env i) part acc ;;
      forEachPart env (S i) rest acc'
  end.

Definition countSuccess (rs : list PartResult) : nat :=
  List.length (filter (fun r => string_eqb (status r) (lit "success")) rs).

(** [error.message || fallback] *)
Definition message_or (e : thrown) (fallback : string) : M js_string :=
  m <- message_of e ;;
  ret (match m with Some x => or_else x (lit fallback) | None => lit fallback end).

(** The route; [body] is [req.body] ([None] when no body was parsed),
    [env i] the outside world during the turn [i] of the loop. *)
Definition bulkProcess (env : nat -> PartEnv) (body : option partNumbersField)
  : M (response BatchSummary) :=
  try_catch
    (match body with
     | None => throw (TypeError
         "Cannot destructure property 'partNumbers' of 'req.body' as it is undefined.")
     | Some Missing | Some NotArray | Some (Array []) =>
         ret (Failed 400 (lit "Part numbers array is required"))
     | Some (Array partNumbers) =>
         if (10 <? List.length partNumbers)%nat
         then ret (Failed 400 (lit "Maximum 10 part numbers allowed"))
         else
           acc <- forEachPart env 0 partNumbers ([], []) ;;
           let (results, errors) := acc in
           ret (Ok {| success := true;
                      results := results;
                      errors := errors;
                      totalProcessed := List.length results;
                      successCount := countSuccess results;
                      errorCount := List.length errors |})
     end)
    (fun err =>
       m <- message_or err "Bulk processing failed" ;;
       ret (Failed 500 m)).


(** ** POST /api/bulk-upload *)

(** [row[0]] *)
Definition firstCell (row : list cell) : cell := hd CellOther row.

(** [part && typeof part === 'string' && part.trim().length > 0] *)
Definition isPartCell (part : cell) : bool :=
  match part with
  | CellString s => truthy s && (0 <? List.length (trim s))%nat
  | CellOther => false
  end.

Definition trimCell (part : cell) : js_string :=
  match part with
  | CellString s => trim s
  | CellOther => []
  end.

Definition extractPartNumbers (jsonData : list (list cell)) : list js_string :=
  slice0 10 (map trimCell (filter isPartCell (map firstCell jsonData))).

Definition bulkUpload (env : UploadEnv) : M (response UploadResult) :=
  try_catch
    (if negb (file env) then ret (Failed 400 (lit "No file uploaded"))
     else
       jsonData <- call ReadFile (outcome (sheet env)) ;;
       let partNumbers := extractPartNumbers jsonData in
       if (List.length partNumbers =? 0)%nat
       then ret (Failed 400 (lit "No valid part numbers found in the file"))
       else if (10 <? List.length partNumbers)%nat
       then ret (Failed 400 (lit "Maximum 10 part numbers allowed"))
       else
         call Unlink (outcome (unlink_result env)) ;;
         ret (Ok {| up_success := true;
                    up_partNumbers := partNumbers;
                    up_count := List.length partNumbers |}))
    (fun err =>
       (if file env
        then try_catch (call Unlink (outcome (cleanup_result env)))
                       (fun cleanupError => ret tt)
        else ret tt) ;;
       m <- message_or err "Failed to process file" ;;
       ret (Failed 500 m)).

(** ** GET /api/bulk-export/:format *)

Definition exportHeader : list js_string :=
  [ lit "Original Part"; lit "TI Cross-Reference Alternative"; lit "Match Type";
    lit "AI Alternative 1"; lit "AI Alternative 2"; lit "AI Alternative 3";
    lit "Status" ].

(** [result.aiAlternatives.length > i ? result.aiAlternatives[i].partNumber : 'N/A'] *)
Definition aiColumn (result : PartResult) (i : nat) : js_string :=
  if (i <? List.length (aiAlternatives result))%nat
  then match nth_error (aiAlternatives result) i with
       | Some alt => sa_partNumber alt
       | None => []
       end
  else lit "N/A".

Definition exportRow (result : PartResult) : list js_string :=
  [ originalPart result;
    match tiAlternatives result with
    | first :: _ => partNumber first
    | [] => lit "N/A"
    end;
    match tiAlternatives result with
    | first :: _ => or_else (matchType first) (lit "Cross-Reference Match")
    | [] => lit "N/A"
    end;
    aiColumn result 0;
    aiColumn result 1;
    aiColumn result 2;
    status result ].

(** The array of arrays handed to [aoa_to_sheet]. *)
Definition excelData (parsedResults : list PartResult) : list (list js_string) :=
  exportHeader :: map exportRow parsedResults.

(** The route up to the sheet data; [results] is the query parameter:
    absent, or what [JSON.parse] makes of it. *)
Definition bulkExport (format : js_string)
    (results : option (thrown + list PartResult))
  : M (response (list (list js_string))) :=
  try_catch
    (match results with
     | None => ret (Failed 400 (lit "Results data is required"))
     | Some parsed =>
         parsedResults <- (fun s => (s, outcome parsed)) ;;
         if string_eqb format (lit "excel")
         then ret (Ok (excelData parsedResults))
         else ret (Failed 400 (lit "Unsupported format. Use " ++ [34]
                                 ++ lit "excel" ++ [34] ++ lit "."))
     end)
    (fun err =>
       m <- message_or err "Export failed" ;;
       ret (Failed 500 m)).

(** ** Post-processing of the rendered HTML *)

Definition lowerAscii (c : N) : N :=
  if (65 <=? c) && (c <=? 90) then c + 32 else c.

(** [prefix] starts [s], letters compared without case: the [i] flag
    on a pattern of ASCII characters. *)
Fixpoint startsWithCI (s prefix : js_string) : bool :=
  match prefix, s with
  | [], _ => true
  | p :: prefix', c :: s' => (lowerAscii p =? lowerAscii c) && startsWithCI s' prefix'
  | _ :: _, [] => false
  end.

(** The number of code units up to the end of the first occurrence of
    [pat] in [s]. *)
Fixpoint findEnd (ci : bool) (pat s : js_string) : option nat :=
  if (if ci then startsWithCI s pat else startsWith s pat)
  then Some (List.length pat)
  else match s with
       | [] => None
       | _ :: s' => option_map S (findEnd ci pat s')
       end.

(** The length of the match of [/<script[\s\S]*?>[\s\S]*?<\/script>/i]
    at the start of [s]: the opening, up to the first [>], up to the
    first closing tag after it. *)
Definition scriptElement (s : js_string) : option nat :=
  if startsWithCI s (lit "<script") then
    match findEnd false (lit ">") (skipn 7 s) with
    | Some n1 =>
        match findEnd true (lit "</script>") (skipn (7 + n1) s) with
        | Some n2 => Some (7 + n1 + n2)%nat
        | None => None
        end
    | None => None
    end
  else None.

(** [s.replace(/<script[\s\S]*?>[\s\S]*?<\/script>/gi, '')]; [skip]
    counts the code units of a match still to be dropped. *)
Fixpoint stripScriptsFrom (s : js_string) (skip : nat) : js_string :=
  match s with
  | [] => []
  | c :: s' =>
      match skip with
      | S k => stripScriptsFrom s' k
      | O =>
          match scriptElement s with
          | Some n => stripScriptsFrom s' (n - 1)
          | None => c :: stripScriptsFrom s' 0
          end
      end
  end.

Definition stripScripts (s : js_string) : js_string := stripScriptsFrom s 0.

(** [s.replace(/pat/g, rep)] for a literal, non-empty [pat]. *)
Fixpoint replaceAllFrom (pat rep s : js_string) (skip : nat) : js_string :=
  match s with
  | [] => []
  | c :: s' =>
      match skip with
      | S k => replaceAllFrom pat rep s' k
      | O =>
          if startsWith s pat
          then rep ++ replaceAllFrom pat rep s' (List.length pat - 1)
          else c :: replaceAllFrom pat rep s' 0
      end
  end.

Definition replaceAll (pat rep s : js_string) : js_string := replaceAllFrom pat rep s 0.

Definition withClass (tag cls : string) : js_string :=
  lit tag ++ lit " class=" ++ [34] ++ lit cls ++ [34].

(** The chain of [.replace] calls of the comparison route. *)
Definition decorate (html : js_string) : js_string :=
  replaceAll (lit "<th") (withClass "<th" "comparison-header")
    (replaceAll (lit "<td") (withClass "<td" "comparison-cell")
       (replaceAll (lit "<tr") (withClass "<tr" "comparison-row")
          (replaceAll (lit "<table") (withClass "<table" "comparison-table")
             (stripScripts html)))).

(** ** GET /test-ti/:partNumber *)


(** ** POST /api/alternatives and POST /api/compare *)

(** [marked(markdown)], the renderer of the library. *)
Variable marked : js_string -> thrown + js_string.

(** [a?.message || fallback] *)
Definition messageOr (m : option js_string) (fallback : js_string) : js_string :=
  match m with Some x => or_else x fallback | None => fallback end.

(** [req.body.partNumber] and the like are given: present and truthy. *)
Definition given (v : option js_string) : bool :=
  match v with Some x => truthy x | None => false end.

Definition alternatives (env : LookupEnv) (partNumber : option js_string)
  : M (response AlternativesResult) :=
  try_catch
    (if negb (configured (lk_OPENAI_API_KEY env))
     then ret (Failed 500 (lit "Server is not configured with OPENAI_API_KEY"))
     else if negb (given partNumber)
     then ret (Failed 400 (lit "Part number is required"))
     else
       let part := match partNumber with Some x => x | None => [] end in
       searchItems <- try_catch (googleSearch (lk_google env) part)
                        (fun e => log_message e ;; ret []) ;;
       ti <- try_catch (scrapeTICrossReference (lk_puppeteer env) part)
                        (fun e => log_message e ;; ret []) ;;
       response <- call (OpenAIFetch part (slice0 6 searchItems) ti)
                        (outcome (lk_chat env)) ;;
       if negb (chat_ok response) then
         errorData <- try_catch (fun s => (s, outcome (chat_json response)))
                        (fun _ => ret (Body None NoChoices)) ;;
         match errorData with
         | BodyNull =>
             throw (TypeError "Cannot read properties of null (reading 'error')")
         | Body em _ =>
             throw (Error (lit "API Error: " ++ messageOr em (chat_statusText response)))
         end
       else
         data <- (fun s => (s, outcome (chat_json response))) ;;
         match data with
         | BodyNull =>
             throw (TypeError "Cannot read properties of null (reading 'choices')")
         | Body _ NoChoices =>
             throw (Error (lit "Unexpected API response structure"))
         | Body _ NoContent =>
             throw (Error (lit "marked(): input parameter is undefined or null"))
         | Body _ (ContentText markdownContent) =>
             html <- (fun s => (s, outcome (marked markdownContent))) ;;
             ret (Ok {| alt_alternatives := stripScripts html;
                        alt_raw := markdownContent;
                        alt_searchResults := searchItems;
                        alt_tiAlternatives := ti |})
         end)
    (fun err =>
       m <- message_or err "Server error" ;;
       ret (Failed 500 m)).

Definition compare (env : CompareEnv) (partA partB : option js_string)
  : M (response js_string) :=
  try_catch
    (if negb (configured (cmp_OPENAI_API_KEY env))
     then ret (Failed 500 (lit "Server is not configured with OPENAI_API_KEY"))
     else if negb (given partA) || negb (given partB)
     then ret (Failed 400 (lit "Both partA and partB are required"))
     else
       let a := match partA with Some x => x | None => [] end in
       let b := match partB with Some x => x | None => [] end in
       response <- call (OpenAICompare a b) (outcome (cmp_chat env)) ;;
       if negb (chat_ok response) then
         err <- try_catch (fun s => (s, outcome (chat_json response)))
                  (fun _ => ret (Body None NoChoices)) ;;
         match err with
         | BodyNull =>
             throw (TypeError "Cannot read properties of null (reading 'error')")
         | Body em _ =>
             ret (Failed (chat_status response) (messageOr em (lit "OpenAI API error")))
         end
       else
         data <- (fun s => (s, outcome (chat_json response))) ;;
         let markdownContent :=
           match data with
           | Body _ (ContentText c) => c
           | _ => []
           end in
         if negb (truthy markdownContent)
         then ret (Failed 502 (lit "Empty response from model"))
         else
           html <- (fun s => (s, outcome (marked markdownContent))) ;;
           ret (Ok (decorate html)))
    (fun err =>
       m <- message_or err "Server error" ;;
       ret (Failed 500 m)).

End Server.

(* ------------------------------------------------------------------ *)
(** * Vocabulary of the specification *)
(* ------------------------------------------------------------------ *)

(** The eight labels of [matchType]. *)
Definition matchTypeLabels : list js_string :=
  [ lit "Exact Match"; lit "Drop-in replacement"; lit "Same Functionality";
    lit "Pin Compatible"; lit "Functional Equivalent"; lit "Compatible";
    lit "Replacement"; lit "Cross-Reference Match" ].

(** The words an anchor's text must not contain. *)
Definition denylist : list js_string :=
  [ lit "Request"; lit "samples"; lit "Close"; lit "Menu"; lit "Previous";
    lit "Language"; lit "My cart"; lit "Search"; lit "Home";
    lit "Cross-reference" ].

(** A priority table: the phrases that select a label, first row first. *)
Definition priorityTable := list (list js_string * js_string).

Fixpoint labelOf (table : priorityTable) (text : js_string) : option js_string :=
  match table with
  | [] => None
  | (phrases, label) :: table' =>
      if existsb (includes text) phrases then Some label
      else labelOf table' text
  end.

(** Walk the ancestors outward; the first one whose lowered text holds
    a phrase of the table gives the label.  With [stopAtBody] the walk
    ends below [document.body]. *)
Fixpoint walkAncestors (table : priorityTable) (stopAtBody : bool)
    (toLowerCase : js_string -> js_string) (e : element) : js_string :=
  match e with
  | null => lit "Cross-Reference Match"
  | Element textContent isBody parentElement =>
      if stopAtBody && isBody then lit "Cross-Reference Match"
      else match labelOf table (toLowerCase textContent) with
           | Some label => label
           | None => walkAncestors table stopAtBody toLowerCase parentElement
           end
  end.

(** The table in the order of the specification's vocabulary. *)
Definition spec_priority : priorityTable :=
  [ ([lit "exact match"], lit "Exact Match");
    ([lit "drop-in replacement"], lit "Drop-in replacement");
    ([lit "same functionality"], lit "Same Functionality");
    ([lit "pin compatible"], lit "Pin Compatible");
    ([lit "functional equivalent"], lit "Functional Equivalent");
    ([lit "compatible"], lit "Compatible");
    ([lit "replacement"], lit "Replacement") ].

(** Match-type inference as the specification words it: ancestors up
    to the document root, phrase priority in vocabulary order. *)
Definition spec_inferMatchType := walkAncestors spec_priority false.

(** The table in the order of the source's [if] chain. *)
Definition source_priority : priorityTable :=
  [ ([lit "drop-in replacement"; lit "drop in replacement"], lit "Drop-in replacement");
    ([lit "exact match"], lit "Exact Match");
    ([lit "same functionality"], lit "Same Functionality");
    ([lit "pin compatible"], lit "Pin Compatible");
    ([lit "functional equivalent"], lit "Functional Equivalent");
    ([lit "compatible"], lit "Compatible");
    ([lit "replacement"], lit "Replacement") ].

(** The export row as the specification words it. *)
Definition orNA (v : option js_string) : js_string :=
  match v with Some x => x | None => lit "N/A" end.

Definition spec_exportRow (r : PartResult) : list js_string :=
  [ originalPart r;
    orNA (option_map partNumber (hd_error (tiAlternatives r)));
    orNA (option_map matchType (hd_error (tiAlternatives r)));
    orNA (option_map sa_partNumber (nth_error (aiAlternatives r) 0));
    orNA (option_map sa_partNumber (nth_error (aiAlternatives r) 1));
    orNA (option_map sa_partNumber (nth_error (aiAlternatives r) 2));
    status r ].

(** ** Predicates used in the statements *)

(** The synthesis step fails: the call is rejected, the answer is not
    2xx, its body cannot be read, or the reply is malformed or empty. *)
Definition synthesisFails (env : OpenAIEnv) : bool :=
  match openai_fetch env with
  | inl _ => true
  | inr r =>
      negb (ai_ok r) ||
      match ai_json r with
      | inl _ => true
      | inr ReplyMalformed => true
      | inr ReplyNoText => true
      | inr (ReplyText content) => negb (truthy content)
      end
  end.

(** A call does not reject with [null] or [undefined]. *)
Definition readable {A} (r : thrown + A) : bool :=
  match r with inl Nullish => false | _ => true end.

(** No call of the extractor before the release rejects with [null]
    or [undefined]. *)
Definition extractionReadable (env : PuppeteerEnv) : bool :=
  readable (launch_result env) && readable (newPage_result env)
  && readable (setUserAgent_result env) && readable (goto_result env)
  && readable (eval_result env).

(** No call made for one part rejects with [null] or [undefined] where
    a handler of the batch route reads [.message]. *)
Definition partReadable (env : PartEnv) : bool :=
  readable (close_result (puppeteer env))
  && readable (google_fetch (google env))
  && match google_fetch (google env) with
     | inr r => readable (g_json r)
     | inl _ => true
     end
  && readable (openai_fetch (openai env))
  && match openai_fetch (openai env) with
     | inr r => readable (ai_json r)
     | inl _ => true
     end.

Definition resolved {A} (r : thrown + A) : bool :=
  match r with inr _ => true | inl _ => false end.

(** Some step of the extractor before the release fails. *)
Definition extractionFails (env : PuppeteerEnv) : bool :=
  negb (resolved (launch_result env) && resolved (newPage_result env)
        && resolved (setUserAgent_result env) && resolved (goto_result env)
        && resolved (waitForSelector_result env) && resolved (eval_result env)).


(** The invariant of a [CrossReferenceAlternative]: an enumerated
    label, a part number longer than 3 and shorter than 20 code units
    that is none of the denylisted words and contains none of them. *)
Definition wellFormedAlternative (a : CrossReferenceAlternative) : Prop :=
  In (matchType a) matchTypeLabels /\
  (3 < List.length (partNumber a) < 20)%nat /\
  ~ In (partNumber a) denylist /\
  Forall (fun w => includes (partNumber a) w = false) denylist.

Definition isClose (ev : event) : bool :=
  match ev with Close => true | _ => false end.

(** How many times the browser was shut down in a trace. *)
Definition closes (t : list event) : nat := List.length (filter isClose t).

(** A source wrapped as the batch route wraps its three sources:
    [try { .. } catch (e) { console.warn(.., e.message) }] around a
    variable that starts as []. *)
Definition guarded {A} (m : M (list A)) : M (list A) :=
  try_catch m (fun e => bind (log_message e) (fun _ => ret [])).

(** The [TypeError] of reading [.message] off [null]. *)
Definition messageTypeError : thrown :=
  TypeError "Cannot read properties of null (reading 'message')".

(** The two shapes of a [PartResult]. *)
Definition successResult (part : js_string)
    (ti : list CrossReferenceAlternative) (ai : list SynthesizedAlternative)
  : PartResult :=
  {| originalPart := part; tiAlternatives := slice0 1 ti;
     aiAlternatives := slice0 3 ai; status := lit "success"; error := None |}.

Definition errorResult (part : js_string) (m : option js_string) : PartResult :=
  {| originalPart := part; tiAlternatives := []; aiAlternatives := [];
     status := lit "error"; error := m |}.

Definition isErrorResult (r : PartResult) : bool :=
  string_eqb (status r) (lit "error").

(** The entry of [errors] that goes with a failed result. *)
Definition errorEntry (r : PartResult) : PartError :=
  {| pe_partNumber := originalPart r; pe_error := error r |}.

(** The invariant of the loop of the batch route: [errors] holds one
    entry for each result marked "error", in order, and the results
    marked "success" make up the rest. *)
Definition batchInvariant (rs : list PartResult) (es : list PartError) : Prop :=
  es = map errorEntry (filter isErrorResult rs) /\
  (countSuccess rs + List.length es = List.length rs)%nat.

(** ** The meaning of a pattern *)

(** A stretch of input that an atom can consume. *)
Definition pieceOf (a : Regex.atom) (m : js_string) : Prop :=
  forallb (Regex.class a) m = true /\
  match Regex.quant a with
  | Regex.One => List.length m = 1%nat
  | Regex.Star => True
  | Regex.Plus | Regex.PlusLazy => m <> []
  end.

(** The captured groups of a split of the input into pieces. *)
Fixpoint capturesOf (r : list Regex.atom) (pieces : list js_string) : list js_string :=
  match r, pieces with
  | a :: r', m :: pieces' =>
      if Regex.capture a then m :: capturesOf r' pieces' else capturesOf r' pieces'
  | _, _ => []
  end.

(** [s] starts with one piece for each atom of [r], in order, and with
    [toEnd] nothing follows them. *)
Definition splitsAs (r : list Regex.atom) (toEnd : bool) (s : js_string)
    (pieces : list js_string) : Prop :=
  Forall2 pieceOf r pieces /\
  exists rest, s = List.concat pieces ++ rest /\ (toEnd = true -> rest = []).

Definition isLineTerminator (c : N) : bool :=
  (c =? 10) || (c =? 13) || (c =? 8232) || (c =? 8233).

(** No white space at the start, at the end. *)
Definition startsClean (s : js_string) : Prop :=
  match s with c :: _ => isWhiteSpace c = false | [] => True end.

Definition endsClean (s : js_string) : Prop := startsClean (rev s).

(** A line the three-field pattern accepts, split into its fields:
    digits, a dot, white space, the part, a hyphen, the description, a
    hyphen, the manufacturer, with optional white space around the
    hyphens. *)
Definition threeFieldSplit (line part desc mfr : js_string) : Prop :=
  exists d w1 w2 w3 w4 w5,
    line = d ++ [46] ++ w1 ++ part ++ w2 ++ [45] ++ w3 ++ desc
             ++ w4 ++ [45] ++ w5 ++ mfr /\
    d <> [] /\ forallb Regex.digit d = true /\
    w1 <> [] /\ forallb isWhiteSpace w1 = true /\
    part <> [] /\ forallb Regex.partChar part = true /\
    forallb isWhiteSpace w2 = true /\ forallb isWhiteSpace w3 = true /\
    desc <> [] /\ forallb Regex.dot desc = true /\
    forallb isWhiteSpace w4 = true /\ forallb isWhiteSpace w5 = true /\
    mfr <> [] /\ forallb Regex.dot mfr = true.


Definition isLaunch (ev : event) : bool :=
  match ev with Launch => true | _ => false end.

(** How many times a browser was launched in a trace. *)
Definition launches (t : list event) : nat := List.length (filter isLaunch t).

(** The ancestor chain cut off at [document.body]. *)
Fixpoint belowBody (e : element) : element :=
  match e with
  | null => null
  | Element textContent isBody parentElement =>
      if isBody then null
      else Element textContent false (belowBody parentElement)
  end.


(** The evidence made of a search hit: title and link as they come,
    the snippet or the empty string. *)
Definition evidenceOf (it : raw_item) : EvidenceItem :=
  match it with
  | Item t l sn =>
      {| ev_title := t; ev_link := l;
         ev_snippet := match sn with Some x => x | None => [] end |}
  | ItemNull => {| ev_title := None; ev_link := None; ev_snippet := [] |}
  end.

(** The search can be sent: both credentials are set and the part
    number can be encoded. *)
Definition searchReady (env : GoogleEnv) (part : js_string) : bool :=
  configured (GOOGLE_API_KEY env) && configured (GOOGLE_CX env) && wellFormed part.

Definition isItem (it : raw_item) : bool :=
  match it with Item _ _ _ => true | ItemNull => false end.

(** What every [PartResult] of a batch looks like: at most one
    structured alternative, well formed, at most three synthesized
    ones, and either the status "success" without an error message or
    the status "error" with the message of the handler's [TypeError]
    and two empty lists. *)
Definition resultShape (r : PartResult) : Prop :=
  (List.length (tiAlternatives r) <= 1)%nat /\
  (List.length (aiAlternatives r) <= 3)%nat /\
  Forall wellFormedAlternative (tiAlternatives r) /\
  ((status r = lit "success" /\ error r = None) \/
   (status r = lit "error" /\
    error r = Some (lit "Cannot read properties of null (reading 'message')") /\
    tiAlternatives r = [] /\ aiAlternatives r = [])).

(** How many of the parts [i .. i+n-1] get a browser launched. *)
Definition launchedCount (env : nat -> PartEnv) (i n : nat) : nat :=
  List.length (filter (fun j => resolved (launch_result (puppeteer (env j))))
                      (seq i n)).



(** No code unit of [s] is [<]. *)
Definition tagFree (s : js_string) : bool := forallb (fun c => negb (c =? 60)) s.

(** What the batch keeps of the extractor: its alternatives when every
    step and the shutdown succeed, nothing otherwise. *)
Definition scraped (toLowerCase : js_string -> js_string) (env : PuppeteerEnv)
  : list CrossReferenceAlternative :=
  if extractionFails env || negb (resolved (close_result env)) then []
  else match eval_result env with
       | inr elements => extractAlternatives toLowerCase elements
       | inl _ => []
       end.

(** What the batch keeps of the model endpoint: the parsed reply when
    the answer is 2xx and holds a text, nothing otherwise. *)
Definition synthesized (env : OpenAIEnv) : list SynthesizedAlternative :=
  match openai_fetch env with
  | inr r =>
      if ai_ok r then
        match ai_json r with
        | inr (ReplyText content) => parseAiAlternatives content
        | _ => []
        end
      else []
  | inl _ => []
  end.



(* ------------------------------------------------------------------ *)
(** * Sample inputs *)
(* ------------------------------------------------------------------ *)

Module Sample.

(** Lower-casing of the Basic Latin letters; it agrees with the engine
    on the ASCII texts below. *)
Definition toLowerCaseAscii (s : js_string) : js_string :=
  map (fun c => if (65 <=? c) && (c <=? 90) then c + 32 else c) s.

Definition LF : js_string := [10].

Definition emptyPage : PuppeteerEnv :=
  {| launch_result := inr tt; newPage_result := inr tt;
     setUserAgent_result := inr tt; goto_result := inr tt;
     waitForSelector_result := inl (Error (lit "Waiting for selector failed: 15000ms exceeded"));
     eval_result := inr []; close_result := inr tt |}.

(** A result table whose row says both "Exact match" and "drop-in
    replacement". *)
Definition row : element :=
  Element (lit "TPS7A4901DGNR Exact match, drop-in replacement") false
    (Element (lit "Cross-reference results") true null).


Definition productLink : anchor :=
  {| a_textContent := lit " TPS7A4901DGNR ";
     a_href := lit "https://www.ti.com/product/TPS7A49/part-details/TPS7A4901DGNR";
     a_title := [];
     a_parentElement := row |}.

Definition menuLink : anchor :=
  {| a_textContent := lit "Request samples";
     a_href := lit "https://www.ti.com/product/TPS7A49#samples";
     a_title := [];
     a_parentElement := row |}.

Definition resultPage : PuppeteerEnv :=
  {| launch_result := inr tt; newPage_result := inr tt;
     setUserAgent_result := inr tt; goto_result := inr tt;
     waitForSelector_result := inr tt;
     eval_result := inr [menuLink; productLink]; close_result := inr tt |}.

(** The same page, but the browser fails to shut down. *)
Definition closeFails : PuppeteerEnv :=
  {| launch_result := inr tt; newPage_result := inr tt;
     setUserAgent_result := inr tt; goto_result := inr tt;
     waitForSelector_result := inr tt;
     eval_result := inr [menuLink; productLink];
     close_result := inl (Error (lit "Protocol error (Browser.close): Target closed")) |}.

Definition noSearch : GoogleEnv :=
  {| GOOGLE_API_KEY := None; GOOGLE_CX := None;
     google_fetch := inl (Error (lit "unreachable")) |}.

(** A search that answers with two hits. *)
Definition searchHits : list raw_item :=
  [ Item (Some (lit "LM317 datasheet")) (Some (lit "https://www.ti.com/lit/ds/symlink/lm317.pdf"))
         (Some (lit "LM317 3-terminal adjustable regulator"));
    Item (Some (lit "LM317T - DigiKey")) (Some (lit "https://www.digikey.com/lm317t")) None ].

Definition searchWorks : GoogleEnv :=
  {| GOOGLE_API_KEY := Some (lit "key"); GOOGLE_CX := Some (lit "cx");
     google_fetch := inr {| g_ok := true; g_status := lit "200";
                            g_text := inr [];
                            g_json := inr (Data (Some searchHits)) |} |}.

(** The model endpoint cannot be reached. *)
Definition modelDown : OpenAIEnv :=
  {| openai_fetch := inl (Error (lit "connect ECONNREFUSED")) |}.

(** The model endpoint refuses the key. *)
Definition modelUnauthorized : OpenAIEnv :=
  {| openai_fetch := inr {| ai_ok := false; ai_json := inr ReplyMalformed |} |}.

Definition modelReplies (content : js_string) : OpenAIEnv :=
  {| openai_fetch := inr {| ai_ok := true; ai_json := inr (ReplyText content) |} |}.

(** Two well-formed lines among two malformed ones. *)
Definition mixedReply : js_string :=
  lit "Here are the alternatives:" ++ LF ++
  lit "1. LM317T - Adjustable regulator, TO-220 - STMicroelectronics" ++ LF ++
  lit "2. see the datasheet" ++ LF ++
  lit "3. LM350T - 3A adjustable regulator - ON Semiconductor".


Definition partEnv (m : OpenAIEnv) : PartEnv :=
  {| puppeteer := emptyPage; google := noSearch; openai := m |}.

(** A world where the third part hits a rejection with [null]. *)
Definition nullRejection : PartEnv :=
  {| puppeteer := emptyPage; google := noSearch;
     openai := {| openai_fetch := inl Nullish |} |}.

Definition world (i : nat) : PartEnv :=
  match i with
  | 0%nat => partEnv modelDown
  | 1%nat => {| puppeteer := resultPage; google := noSearch;
                openai := modelReplies mixedReply |}
  | 2%nat => nullRejection
  | _ => partEnv modelUnauthorized
  end.

Definition threeParts : list js_string := [lit "LM317"; lit "TPS7A49"; lit "NE555"].

Definition elevenParts : list js_string :=
  map (fun c => lit "PART-" ++ [c]) [65; 66; 67; 68; 69; 70; 71; 72; 73; 74; 75].

(** A sheet with a header-less first column of eleven part numbers, a
    number and a blank among them. *)
Definition elevenRows : list (list cell) :=
  [CellOther; CellString (lit "x")] :: [CellString (lit "   ")] :: [] ::
  map (fun p => [CellString (lit " " ++ p); CellOther]) elevenParts.

Definition upload : UploadEnv :=
  {| file := true; sheet := inr elevenRows;
     unlink_result := inr tt; cleanup_result := inr tt |}.

(** An upload whose sheet cannot be read. *)
Definition unreadable : UploadEnv :=
  {| file := true; sheet := inl (Error (lit "File is password-protected"));
     unlink_result := inr tt;
     cleanup_result := inl (Error (lit "ENOENT")) |}.


(** A model endpoint that is out of quota. *)
Definition chatLimited : thrown + ChatResponse :=
  inr {| chat_ok := false; chat_status := 429; chat_statusText := lit "Too Many Requests";
         chat_json := inr (Body (Some (lit "Rate limit reached")) NoChoices) |}.

Definition lookup (chat : thrown + ChatResponse) : LookupEnv :=
  {| lk_OPENAI_API_KEY := Some (lit "sk-test"); lk_google := noSearch;
     lk_puppeteer := resultPage; lk_chat := chat |}.

Definition comparison (chat : thrown + ChatResponse) : CompareEnv :=
  {| cmp_OPENAI_API_KEY := Some (lit "sk-test"); cmp_chat := chat |}.

(** A renderer that wraps its input in a paragraph. *)
Definition paragraph (markdown : js_string) : thrown + js_string :=
  inr (lit "<p>" ++ markdown ++ lit "</p>").

Definition okResult : PartResult :=
  {| originalPart := lit "TPS7A49";
     tiAlternatives :=
       [ {| partNumber := lit "TPS7A4901DGNR"; matchType := lit "Drop-in replacement";
            href := lit "https://www.ti.com/product/TPS7A49"; title := lit "TPS7A4901DGNR" |} ];
     aiAlternatives :=
       [ {| sa_partNumber := lit "LT3042"; sa_description := lit "LDO";
            sa_manufacturer := lit "Analog Devices" |} ];
     status := lit "success";
     error := None |}.

End Sample.

(* ------------------------------------------------------------------ *)
(** * Properties *)
(* ------------------------------------------------------------------ *)

(** ** Facts on strings *)

Ltac bool_hyps :=
  repeat match goal with
  | H : _ && _ = true |- _ => apply andb_true_iff in H; destruct H
  | H : _ || _ = true |- _ => apply orb_true_iff in H; destruct H
  | H : _ || _ = false |- _ => apply orb_false_iff in H; destruct H
  | H : negb _ = true |- _ => apply negb_true_iff in H
  | H : negb _ = false |- _ => apply negb_false_iff in H
  | H : (_ <=? _) = true |- _ => apply N.leb_le in H
  | H : (_ =? _) = true |- _ => apply N.eqb_eq in H
  | H : (_ <=? _) = false |- _ => apply N.leb_gt in H
  | H : (_ =? _) = false |- _ => apply N.eqb_neq in H
  end.

Lemma partChar_not_space c : Regex.partChar c = true -> isWhiteSpace c = false.
Proof.
  intros H. destruct (isWhiteSpace c) eqn:E; [exfalso | reflexivity].
  unfold Regex.partChar, Regex.upper, Regex.digit in H.
  unfold isWhiteSpace in E.
  bool_hyps; lia.
Qed.

Lemma trimStart_head c s : isWhiteSpace c = false -> trimStart (c :: s) = c :: s.
Proof. intros H. simpl. now rewrite H. Qed.

Lemma trim_no_space s :
  forallb (fun c => negb (isWhiteSpace c)) s = true -> trim s = s.
Proof.
  intros H. unfold trim, trimEnd.
  assert (Hs : trimStart s = s).
  { destruct s as [|c s]; [reflexivity|]. simpl in H.
    apply andb_true_iff in H. destruct H as [H _].
    apply negb_true_iff in H. now apply trimStart_head. }
  rewrite Hs.
  assert (Hr : trimStart (rev s) = rev s).
  { destruct (rev s) as [|c t] eqn:E; [reflexivity|].
    apply trimStart_head.
    rewrite forallb_forall in H.
    apply negb_true_iff, H, in_rev. rewrite E. now left. }
  rewrite Hr. apply rev_involutive.
Qed.

Lemma forallb_impl {A} (p q : A -> bool) l :
  (forall a, p a = true -> q a = true) -> forallb p l = true -> forallb q l = true.
Proof.
  intros Hpq. rewrite !forallb_forall. auto.
Qed.

(** ** Facts on the matcher *)

Module RegexFacts.
Import Regex.

Lemma greedy_inv R p (k : js_string -> js_string -> option R) :
  forall s acc r, greedy p k acc s = Some r ->
  exists m rest, s = m ++ rest /\ forallb p m = true /\ k (acc ++ m) rest = Some r.
Proof.
  induction s as [|c s IH]; intros acc r H; simpl in H.
  - exists [], []. rewrite !app_nil_r. auto.
  - destruct (p c) eqn:Hc.
    + destruct (greedy p k (acc ++ [c]) s) as [r'|] eqn:G.
      * injection H as <-. apply IH in G. destruct G as (m & rest & -> & Hm & Hk).
        exists (c :: m), rest. simpl. rewrite Hc, Hm. rewrite <- app_assoc in Hk. auto.
      * exists [], (c :: s). rewrite !app_nil_r. auto.
    + exists [], (c :: s). rewrite !app_nil_r. auto.
Qed.

Lemma lazy_inv R p (k : js_string -> js_string -> option R) :
  forall s acc r, lazy p k acc s = Some r ->
  exists m rest, s = m ++ rest /\ forallb p m = true /\ k (acc ++ m) rest = Some r.
Proof.
  induction s as [|c s IH]; intros acc r H; simpl in H.
  - destruct (k acc []) eqn:K; [|discriminate].
    exists [], []. rewrite !app_nil_r. injection H as <-. auto.
  - destruct (k acc (c :: s)) eqn:K.
    + injection H as <-. exists [], (c :: s). rewrite !app_nil_r. auto.
    + destruct (p c) eqn:Hc; [|discriminate].
      apply IH in H. destruct H as (m & rest & -> & Hm & Hk).
      exists (c :: m), rest. simpl. rewrite Hc, Hm. rewrite <- app_assoc in Hk. auto.
Qed.




End RegexFacts.

(** ** The parser of the model's reply *)

Lemma In_slice0 {A} n (l : list A) x : In x (slice0 n l) -> In x l.
Proof.
  unfold slice0. intros H. rewrite <- (firstn_skipn n l). apply in_or_app. now left.
Qed.

Lemma In_dropNull {A B} (f : A -> option B) l b :
  In b (dropNull (map f l)) -> exists a, In a l /\ f a = Some b.
Proof.
  induction l as [|a l IH]; simpl; [contradiction|].
  destruct (f a) as [b'|] eqn:E.
  - intros [<- | H]; [exists a; auto|].
    destruct (IH H) as (x & Hx & Hf). exists x; auto.
  - intros H. destruct (IH H) as (x & Hx & Hf). exists x; auto.
Qed.






(** Two well-formed lines among two malformed ones give two entries. *)
Example parseAiAlternatives_mixed :
  List.length (parseAiAlternatives Sample.mixedReply) = 2%nat.
Proof. vm_compute. reflexivity. Qed.

(** ** The extractor *)

Lemma startsWith_refl s : startsWith s s = true.
Proof. induction s as [|c s IH]; simpl; [reflexivity|]. now rewrite N.eqb_refl. Qed.

Lemma includes_refl s : includes s s = true.
Proof. destruct s; simpl; [reflexivity|]. now rewrite N.eqb_refl, startsWith_refl. Qed.

(** Unfold the monad and split on every outcome the run looks at. *)
Ltac run_monad :=
  unfold try_finally, try_catch, bind, call, set_browser, get_browser,
         log_message, message_of, ret, throw, outcome in *;
  cbn [trace browser fst snd] in *.

Ltac split_outcomes :=
  repeat match goal with
  | |- context [match ?x with inl _ => _ | inr _ => _ end] => destruct x as [[?|]|?]
  | |- context [match ?x with Exn _ => _ | Nullish => _ end] => destruct x
  | H : context [match ?x with inl _ => _ | inr _ => _ end] |- _ => destruct x as [[?|]|?]
  end; cbn [trace browser fst snd] in *.

(** Split a run of the extractor on the outcome of each call, in the
    order of the calls. *)
Ltac scrape_cases env :=
  unfold scrapeTICrossReference, extractionFails, extractionReadable;
  destruct env as [l n u g w e c];
  cbn [launch_result newPage_result setUserAgent_result goto_result
       waitForSelector_result eval_result close_result];
  run_monad;
  destruct l as [[?|]|[]]; cbn;
  [ | | destruct n as [[?|]|[]]; cbn;
        [ | | destruct u as [[?|]|[]]; cbn;
              [ | | destruct g as [[?|]|[]]; cbn;
                    [ | | destruct w as [[?|]|[]]; cbn;
                          [ | | destruct e as [[?|]|?]; cbn ] ] ] ] ];
  try (destruct c as [[?|]|[]]; cbn).

Section Extractor.

Variable toLowerCase : js_string -> js_string.

Lemma inferMatchType_label e : In (inferMatchType toLowerCase e) matchTypeLabels.
Proof.
  induction e as [|text isBody parent IH]; cbn [inferMatchType].
  - unfold matchTypeLabels. cbn [In]. tauto.
  - destruct isBody; [unfold matchTypeLabels; cbn [In]; tauto|].
    repeat match goal with
    | |- context [if ?b then _ else _] => destruct b
    end; try exact IH; unfold matchTypeLabels; cbn [In]; tauto.
Qed.

(** C4 (as amended). The label of an anchor is found by walking its
    ancestors outward, below [document.body]; the first ancestor whose
    lower-cased text contains a phrase decides, with the phrases tried
    in the order of the source: drop-in replacement (also written
    without the hyphen), exact match, same functionality, pin
    compatible, functional equivalent, compatible, replacement; the
    default label is given when the walk finds none. *)
Theorem inferMatchType_source_priority (e : element) :
  inferMatchType toLowerCase e = walkAncestors source_priority true toLowerCase e.
Proof.
  induction e as [|text isBody parent IH]; [reflexivity|].
  cbn [inferMatchType walkAncestors]. destruct isBody; [reflexivity|].
  cbn [andb labelOf source_priority existsb].
  repeat match goal with
  | |- context [includes ?a ?b] => destruct (includes a b)
  end; cbn [orb]; try reflexivity; exact IH.
Qed.

Lemma isPartLink_text el :
  isPartLink el = true ->
  (3 < List.length (trim (a_textContent el)) < 20)%nat /\
  Forall (fun w => includes (trim (a_textContent el)) w = false) denylist.
Proof.
  unfold isPartLink. intros H.
  repeat (apply andb_true_iff in H; destruct H as [H ?]).
  repeat match goal with
  | H : negb _ = true |- _ => apply negb_true_iff in H
  | H : (_ <? _)%nat = true |- _ => apply Nat.ltb_lt in H
  end.
  split; [lia|]. unfold denylist. repeat constructor; assumption.
Qed.

Lemma extractAlternatives_wellFormed els :
  Forall wellFormedAlternative (extractAlternatives toLowerCase els).
Proof.
  apply Forall_forall. intros a H. unfold extractAlternatives in H.
  apply in_map_iff in H. destruct H as (el & <- & Hel).
  apply filter_In in Hel. destruct Hel as [_ Hel].
  destruct (isPartLink_text _ Hel) as [Hlen Hdeny].
  unfold wellFormedAlternative, toAlternative; cbn [matchType partNumber].
  split; [apply inferMatchType_label|]. split; [exact Hlen|]. split; [|exact Hdeny].
  intros Hin. rewrite Forall_forall in Hdeny. specialize (Hdeny _ Hin).
  now rewrite includes_refl in Hdeny.
Qed.

(** What a run of the extractor can return. *)
Lemma scrape_returns env part s alts :
  snd (scrapeTICrossReference toLowerCase env part s) = Normal alts ->
  alts = [] \/
  exists els, eval_result env = inr els /\ extractionFails env = false /\
              alts = extractAlternatives toLowerCase els.
Proof.
  unfold scrapeTICrossReference, extractionFails. destruct env as [l n u g w e c].
  cbn [launch_result newPage_result setUserAgent_result goto_result
       waitForSelector_result eval_result close_result].
  run_monad.
  destruct l as [[?|]|[]]; cbn; try (destruct c as [[?|]|[]]; cbn); try (intros [= <-]; auto; fail); try discriminate;
  destruct n as [[?|]|[]]; cbn; try (destruct c as [[?|]|[]]; cbn); try (intros [= <-]; auto; fail); try discriminate;
  destruct u as [[?|]|[]]; cbn; try (destruct c as [[?|]|[]]; cbn); try (intros [= <-]; auto; fail); try discriminate;
  destruct g as [[?|]|[]]; cbn; try (destruct c as [[?|]|[]]; cbn); try (intros [= <-]; auto; fail); try discriminate;
  destruct w as [[?|]|[]]; cbn; try (destruct c as [[?|]|[]]; cbn); try (intros [= <-]; auto; fail); try discriminate;
  destruct e as [[?|]|els]; cbn; try (destruct c as [[?|]|[]]; cbn); try (intros [= <-]; auto; fail); try discriminate.
  all: intros [= <-]; right; exists els; auto.
Qed.

(** C7. Whatever the page, every alternative the extractor returns
    carries one of the eight labels, and its part number is longer than
    3 and shorter than 20 code units, is none of the denylisted words
    and contains none of them. *)
Theorem scrape_alternatives_wellFormed env part s :
  match snd (scrapeTICrossReference toLowerCase env part s) with
  | Normal alts => Forall wellFormedAlternative alts
  | Throw _ => True
  end.
Proof.
  destruct (snd (scrapeTICrossReference toLowerCase env part s)) as [alts|] eqn:E;
    [|exact I].
  apply scrape_returns in E. destruct E as [-> | (els & _ & _ & ->)].
  - constructor.
  - apply extractAlternatives_wellFormed.
Qed.

(** The browser is shut down exactly once, as the last call, on every
    path where it was launched, also when the run ends in an exception;
    when the launch fails nothing else is called. *)
Lemma scrape_releases env part s :
  exists t, trace (fst (scrapeTICrossReference toLowerCase env part s)) = trace s ++ t /\
    hd_error t = Some Launch /\
    if resolved (launch_result env)
    then last t Launch = Close /\ closes t = 1%nat
    else t = [Launch].
Proof.
  scrape_cases env; rewrite <- ?app_assoc; cbn;
    (eexists; split; [reflexivity|]); cbn; auto.
Qed.


End Extractor.

(** C4 (counterexample). On a row that reads both "Exact match" and
    "drop-in replacement" the source answers with the drop-in label,
    the vocabulary order of the specification with the exact one. *)
Lemma inferMatchType_not_vocabulary_order :
  inferMatchType Sample.toLowerCaseAscii Sample.row = lit "Drop-in replacement" /\
  spec_inferMatchType Sample.toLowerCaseAscii Sample.row = lit "Exact Match" /\
  inferMatchType Sample.toLowerCaseAscii Sample.row
    <> spec_inferMatchType Sample.toLowerCaseAscii Sample.row.
Proof. vm_compute. repeat split; discriminate. Qed.



(** ** The batch route *)

(** A guarded source returns what the source returns, the empty list
    when the source throws a value with a readable [.message], and
    throws a [TypeError] when the source throws [null] or [undefined]. *)
Lemma guarded_run {A} (m : M (list A)) s :
  guarded m s =
  match m s with
  | (s', Normal x) => (s', Normal x)
  | (s', Throw (Exn _)) => (s', Normal [])
  | (s', Throw Nullish) => (s', Throw messageTypeError)
  end.
Proof.
  unfold guarded. run_monad. destruct (m s) as [s' [x|[msg|]]]; reflexivity.
Qed.

Lemma bind_run {A B} (m : M A) (f : A -> M B) s :
  bind m f s =
  match m s with
  | (s', Normal a) => f a s'
  | (s', Throw e) => (s', Throw e)
  end.
Proof. unfold bind. destruct (m s) as [s' [a|e]]; reflexivity. Qed.

Lemma try_catch_run {A} (m : M A) h s :
  try_catch m h s =
  match m s with
  | (s', Normal a) => (s', Normal a)
  | (s', Throw e) => h e s'
  end.
Proof. unfold try_catch. destruct (m s) as [s' [a|e]]; reflexivity. Qed.

Section Batch.

Variable toLowerCase : js_string -> js_string.

Lemma processPart_run env part acc s :
  exists s',
    (exists ti ai,
       processPart toLowerCase env part acc s
       = (s', Normal (fst acc ++ [successResult part ti ai], snd acc)))
    \/
    (exists m,
       processPart toLowerCase env part acc s
       = (s', Normal (fst acc ++ [errorResult part m],
                      snd acc ++ [{| pe_partNumber := part; pe_error := m |}]))).
Proof.
  destruct (processPart toLowerCase env part acc s) as [s' c] eqn:E.
  exists s'. revert E. unfold processPart.
  repeat match goal with
  | |- context [try_catch ?m (fun e => bind (log_message e) (fun _ => ret []))] =>
      change (try_catch m (fun e => bind (log_message e) (fun _ => ret [])))
        with (guarded m)
  end.
  rewrite try_catch_run, bind_run, guarded_run.
  destruct (scrapeTICrossReference toLowerCase (puppeteer env) part s) as [s1 [ti|[m1|]]];
    cbv beta iota;
    [ | | intros [= <- <-]; right; eexists; reflexivity ].
  all: rewrite bind_run, guarded_run;
    destruct (googleSearch (google env) part s1) as [s2 [items|[m2|]]];
    cbv beta iota;
    [ | | intros [= <- <-]; right; eexists; reflexivity ].
  all: rewrite bind_run;
    match goal with
    | |- context [try_catch ?m (fun e => bind (log_message e) (fun _ => ret []))] =>
        change (try_catch m (fun e => bind (log_message e) (fun _ => ret [])))
          with (guarded m)
    end;
    rewrite guarded_run;
    match goal with
    | |- context [synthesize ?e ?p ?i ?t ?st] =>
        destruct (synthesize e p i t st) as [s3 [ai|[m3|]]]
    end; cbv beta iota; intros [= <- <-];
    first [ left; exists ti, ai; reflexivity | left; exists ti, []; reflexivity
          | left; exists [], ai; reflexivity | left; exists [], []; reflexivity
          | right; eexists; reflexivity ].
Qed.

Lemma countSuccess_app rs rs' :
  countSuccess (rs ++ rs') = (countSuccess rs + countSuccess rs')%nat.
Proof. unfold countSuccess. now rewrite filter_app, length_app. Qed.

Lemma batchInvariant_nil : batchInvariant [] [].
Proof. split; reflexivity. Qed.

Lemma batchInvariant_success rs es part ti ai :
  batchInvariant rs es -> batchInvariant (rs ++ [successResult part ti ai]) es.
Proof.
  intros [He Hc]. split.
  - rewrite filter_app. cbn. now rewrite app_nil_r.
  - rewrite countSuccess_app, length_app. cbn. lia.
Qed.

Lemma batchInvariant_error rs es part m :
  batchInvariant rs es ->
  batchInvariant (rs ++ [errorResult part m])
                 (es ++ [{| pe_partNumber := part; pe_error := m |}]).
Proof.
  intros [He Hc]. split.
  - rewrite filter_app, map_app, <- He. reflexivity.
  - rewrite countSuccess_app, !length_app. cbn. lia.
Qed.

Lemma forEachPart_run env parts :
  forall i acc s, batchInvariant (fst acc) (snd acc) ->
  exists s' rs es,
    forEachPart toLowerCase env i parts acc s = (s', Normal (rs, es)) /\
    batchInvariant rs es /\
    map originalPart rs = map originalPart (fst acc) ++ parts.
Proof.
  induction parts as [|part parts IH]; intros i [rs0 es0] s Hinv.
  - exists s, rs0, es0. cbn. rewrite app_nil_r. auto.
  - cbn [forEachPart]. rewrite bind_run.
    destruct (processPart_run (env i) part (rs0, es0) s) as (s1 & [(ti & ai & E) | (m & E)]);
      rewrite E; cbn [fst snd] in *.
    + destruct (IH (S i) (rs0 ++ [successResult part ti ai], es0) s1)
        as (s' & rs & es & E' & Hinv' & Hmap).
      { now apply batchInvariant_success. }
      exists s', rs, es. split; [exact E'|]. split; [exact Hinv'|].
      rewrite Hmap. cbn [fst]. rewrite map_app, <- app_assoc. reflexivity.
    + destruct (IH (S i) (rs0 ++ [errorResult part m],
                          es0 ++ [{| pe_partNumber := part; pe_error := m |}]) s1)
        as (s' & rs & es & E' & Hinv' & Hmap).
      { now apply batchInvariant_error. }
      exists s', rs, es. split; [exact E'|]. split; [exact Hinv'|].
      rewrite Hmap. cbn [fst]. rewrite map_app, <- app_assoc. reflexivity.
Qed.

(** What the route answers to a list of one to ten part numbers. *)
Lemma bulkProcess_accepts env parts s :
  (1 <= List.length parts <= 10)%nat ->
  exists s' rs es,
    bulkProcess toLowerCase env (Some (Array parts)) s
    = (s', Normal (Ok {| success := true; results := rs; errors := es;
                         totalProcessed := List.length rs;
                         successCount := countSuccess rs;
                         errorCount := List.length es |})) /\
    batchInvariant rs es /\
    map originalPart rs = parts.
Proof.
  intros [Hlo Hhi]. unfold bulkProcess.
  destruct parts as [|p parts]; [cbn in Hlo; lia|].
  assert (L : (10 <? List.length (p :: parts))%nat = false) by (apply Nat.ltb_ge; exact Hhi).
  rewrite L, try_catch_run, bind_run.
  destruct (forEachPart_run env (p :: parts) 0 ([], []) s batchInvariant_nil)
    as (s' & rs & es & E & Hinv & Hmap).
  rewrite E. exists s', rs, es. auto.
Qed.

(** C2. A list of one to ten part numbers is answered with a summary
    whose results are one per part number, in the order of the input,
    whatever happens to each part. *)
Theorem bulkProcess_one_result_per_part env parts s :
  (1 <= List.length parts <= 10)%nat ->
  exists s' summary,
    bulkProcess toLowerCase env (Some (Array parts)) s = (s', Normal (Ok summary)) /\
    map originalPart (results summary) = parts /\
    List.length (results summary) = List.length parts.
Proof.
  intros H. destruct (@bulkProcess_accepts env parts s H) as (s' & rs & es & E & _ & Hmap).
  eexists s', _. split; [exact E|]. cbn [results]. split; [exact Hmap|].
  now rewrite <- Hmap, length_map.
Qed.

(** C8. An empty list and a list of more than ten part numbers are
    answered with a 400 error before any work: the state, and with it
    the trace of external calls, is unchanged. *)
Theorem bulkProcess_rejects_out_of_range env parts s :
  (List.length parts = 0 \/ 10 < List.length parts)%nat ->
  exists msg,
    bulkProcess toLowerCase env (Some (Array parts)) s = (s, Normal (Failed 400 msg)).
Proof.
  intros H. unfold bulkProcess. destruct parts as [|p parts].
  - eexists. reflexivity.
  - assert (L : (10 <? List.length (p :: parts))%nat = true)
      by (apply Nat.ltb_lt; destruct H as [H|H]; [discriminate H | exact H]).
    rewrite L. eexists. reflexivity.
Qed.

Lemma bulkProcess_over_limit env parts s :
  (10 < List.length parts)%nat ->
  exists msg,
    bulkProcess toLowerCase env (Some (Array parts)) s = (s, Normal (Failed 400 msg)).
Proof.
  intros H. unfold bulkProcess. destruct parts as [|p parts]; [cbn in H; lia|].
  apply Nat.ltb_lt in H. rewrite H. eexists. reflexivity.
Qed.

(** C3. In every summary the route answers with, [totalProcessed] is
    the number of results, [successCount] the number of results marked
    "success", [errorCount] the length of [errors], the two counts add
    up to [totalProcessed], and [errors] has one entry for each result
    marked "error". *)
Theorem bulkProcess_summary_counts env body s s' summary :
  bulkProcess toLowerCase env body s = (s', Normal (Ok summary)) ->
  totalProcessed summary = List.length (results summary) /\
  successCount summary = countSuccess (results summary) /\
  errorCount summary = List.length (errors summary) /\
  (successCount summary + errorCount summary = totalProcessed summary)%nat /\
  errors summary = map errorEntry (filter isErrorResult (results summary)).
Proof.
  destruct body as [[| |parts]|]; try (cbn; congruence).
  2: { intros E. vm_compute in E. discriminate E. }
  destruct (Nat.le_gt_cases (List.length parts) 10) as [Hhi|Hhi].
  - destruct parts as [|p parts]; [cbn; congruence|].
    destruct (@bulkProcess_accepts env (p :: parts) s) as (s1 & rs & es & E & [He Hc] & _).
    { cbn [List.length] in *. lia. }
    rewrite E. intros [= <- <-]. cbn. auto.
  - destruct (@bulkProcess_over_limit env parts s Hhi) as (msg & E).
    rewrite E. congruence.
Qed.

(** What the extractor can throw: the rejection of [browser.close], or
    the [TypeError] of its own handler. *)
Lemma scrape_throws env part s err :
  snd (scrapeTICrossReference toLowerCase env part s) = Throw err ->
  err = messageTypeError \/ close_result env = inl err.
Proof.
  scrape_cases env; intros [= <-]; auto.
Qed.

Lemma mapM_toEvidence_throws l s :
  snd (mapM toEvidence l s) <> Throw Nullish.
Proof.
  revert s. induction l as [|it l IH]; intros s; cbn [mapM]; [discriminate|].
  rewrite bind_run. destruct it as [|t k sn]; cbn; [discriminate|].
  rewrite bind_run. specialize (IH s).
  destruct (mapM toEvidence l s) as [s' [x|e]]; cbn in *; [discriminate|].
  congruence.
Qed.

Lemma googleSearch_throws env part s :
  readable (google_fetch env) = true ->
  match google_fetch env with inr r => readable (g_json r) | inl _ => true end = true ->
  snd (googleSearch env part s) <> Throw Nullish.
Proof.
  unfold googleSearch. intros Hf Hj.
  destruct (negb (configured (GOOGLE_API_KEY env)) || negb (configured (GOOGLE_CX env)));
    [discriminate|].
  destruct (negb (wellFormed part)); [discriminate|].
  rewrite bind_run. unfold call at 1.
  destruct (google_fetch env) as [[m|]|r]; cbn [outcome readable] in *; try discriminate.
  destruct (negb (g_ok r)); [discriminate|].
  rewrite bind_run.
  destruct (g_json r) as [[m|]|[|items]]; cbn [outcome readable] in *; try discriminate.
  apply mapM_toEvidence_throws.
Qed.

(** A failing synthesis step returns the empty list or throws. *)
Lemma synthesize_fails env part items ti s :
  synthesisFails env = true ->
  readable (openai_fetch env) = true ->
  match openai_fetch env with inr r => readable (ai_json r) | inl _ => true end = true ->
  snd (synthesize env part items ti s) = Normal [] \/
  exists m, snd (synthesize env part items ti s) = Throw (Exn m).
Proof.
  unfold synthesize, synthesisFails. intros Hs Hf Hj. run_monad.
  destruct (openai_fetch env) as [[m|]|r]; cbn [snd readable] in *;
    try discriminate; [right; eexists; reflexivity|].
  destruct (ai_ok r); cbn [snd negb orb] in *; [|auto].
  destruct (ai_json r) as [[m|]|[| |content]]; cbn [snd readable] in *;
    try discriminate; try (right; eexists; reflexivity).
  destruct content; [left; reflexivity | discriminate].
Qed.

(** C1 (as amended). In batch mode a failing synthesis step is
    tolerated like a failing source: when no call rejects with [null]
    or [undefined], the part still gets a result marked "success", with
    no synthesized alternative and no error message, and nothing is
    added to [errors]. *)
Theorem processPart_tolerates_synthesis_failure env part acc s :
  synthesisFails (openai env) = true ->
  partReadable env = true ->
  exists s' ti,
    processPart toLowerCase env part acc s
    = (s', Normal (fst acc ++ [ {| originalPart := part;
                                   tiAlternatives := ti;
                                   aiAlternatives := [];
                                   status := lit "success";
                                   error := None |} ],
                   snd acc)).
Proof.
  intros Hs Hr. unfold partReadable in Hr.
  repeat (apply andb_true_iff in Hr; destruct Hr as [Hr ?]).
  destruct (processPart toLowerCase env part acc s) as [s' c] eqn:E.
  exists s'. revert E. unfold processPart.
  repeat match goal with
  | |- context [try_catch ?m (fun e => bind (log_message e) (fun _ => ret []))] =>
      change (try_catch m (fun e => bind (log_message e) (fun _ => ret [])))
        with (guarded m)
  end.
  rewrite try_catch_run, bind_run, guarded_run.
  pose proof (@scrape_throws (puppeteer env) part s Nullish) as T1.
  destruct (scrapeTICrossReference toLowerCase (puppeteer env) part s) as [s1 [ti|[m1|]]];
    cbv beta iota.
  3: { exfalso. destruct (T1 eq_refl) as [T|T]; [discriminate T|].
       rewrite T in Hr. discriminate Hr. }
  all: rewrite bind_run, guarded_run;
    pose proof (@googleSearch_throws (google env) part s1) as T2;
    destruct (googleSearch (google env) part s1) as [s2 [items|[m2|]]];
    cbv beta iota;
    try (exfalso; apply T2; auto; fail).
  all: rewrite bind_run;
    match goal with
    | |- context [try_catch ?m (fun e => bind (log_message e) (fun _ => ret []))] =>
        change (try_catch m (fun e => bind (log_message e) (fun _ => ret [])))
          with (guarded m)
    end;
    rewrite guarded_run;
    match goal with
    | |- context [synthesize ?e ?p ?i ?t ?st] =>
        destruct (@synthesize_fails e p i t st Hs) as [T3 | [m3 T3]]; auto;
        destruct (synthesize e p i t st) as [s3 [ai|[m3'|]]]
    end; cbn [snd] in T3; try discriminate T3;
    try (injection T3 as ->); cbv beta iota; intros [= <- <-];
    eexists; reflexivity.
Qed.
End Batch.

(** C1 (counterexample). The model endpoint cannot be reached, and
    the part is still marked "success". *)
Lemma processPart_success_despite_synthesis_failure :
  synthesisFails (openai (Sample.partEnv Sample.modelDown)) = true /\
  snd (processPart Sample.toLowerCaseAscii (Sample.partEnv Sample.modelDown)
         (lit "LM317") (@nil PartResult, @nil PartError) initial)
  = Normal ([ {| originalPart := lit "LM317"; tiAlternatives := [];
                 aiAlternatives := []; status := lit "success";
                 error := None |} ], []) /\
  lit "success" <> lit "error".
Proof. vm_compute. repeat split; discriminate. Qed.

(** C1 (witness). *)
Lemma processPart_tolerates_synthesis_failure_witness :
  synthesisFails (openai (Sample.partEnv Sample.modelUnauthorized)) = true /\
  partReadable (Sample.partEnv Sample.modelUnauthorized) = true /\
  exists s' ti,
    processPart Sample.toLowerCaseAscii (Sample.partEnv Sample.modelUnauthorized)
      (lit "NE555") (@nil PartResult, @nil PartError) initial
    = (s', Normal ([ {| originalPart := lit "NE555";
                        tiAlternatives := ti;
                        aiAlternatives := [];
                        status := lit "success";
                        error := None |} ], [])).
Proof.
  split; [reflexivity|]. split; [reflexivity|].
  exact (@processPart_tolerates_synthesis_failure Sample.toLowerCaseAscii
           (Sample.partEnv Sample.modelUnauthorized) (lit "NE555")
           (@nil PartResult, @nil PartError) initial eq_refl eq_refl).
Defined.

(** C2 (witness). *)
Lemma bulkProcess_one_result_per_part_witness :
  (1 <= List.length Sample.threeParts <= 10)%nat /\
  exists s' summary,
    bulkProcess Sample.toLowerCaseAscii Sample.world (Some (Array Sample.threeParts)) initial
      = (s', Normal (Ok summary)) /\
    map originalPart (results summary) = Sample.threeParts /\
    List.length (results summary) = List.length Sample.threeParts.
Proof.
  assert (H : (1 <= List.length Sample.threeParts <= 10)%nat) by (cbn; lia).
  split; [exact H|].
  exact (@bulkProcess_one_result_per_part Sample.toLowerCaseAscii Sample.world
           Sample.threeParts initial H).
Defined.

(** C8 (witness). *)
Lemma bulkProcess_rejects_out_of_range_witness :
  (List.length Sample.elevenParts = 0 \/ 10 < List.length Sample.elevenParts)%nat /\
  exists msg,
    bulkProcess Sample.toLowerCaseAscii Sample.world (Some (Array Sample.elevenParts)) initial
    = (initial, Normal (Failed 400 msg)).
Proof.
  assert (H : (List.length Sample.elevenParts = 0 \/ 10 < List.length Sample.elevenParts)%nat)
    by (right; cbn; lia).
  split; [exact H|].
  exact (@bulkProcess_rejects_out_of_range Sample.toLowerCaseAscii Sample.world
           Sample.elevenParts initial H).
Defined.

(** C3 (witness). *)
Lemma bulkProcess_summary_counts_witness :
  exists s' summary,
    bulkProcess Sample.toLowerCaseAscii Sample.world
      (Some (Array Sample.threeParts)) initial = (s', Normal (Ok summary)) /\
    (totalProcessed summary = List.length (results summary) /\
     successCount summary = countSuccess (results summary) /\
     errorCount summary = List.length (errors summary) /\
     (successCount summary + errorCount summary = totalProcessed summary)%nat /\
     errors summary = map errorEntry (filter isErrorResult (results summary))) /\
    (totalProcessed summary = 3 /\ successCount summary = 2 /\ errorCount summary = 1)%nat.
Proof.
  do 2 eexists. split; [vm_compute; reflexivity|]. split.
  - eapply (@bulkProcess_summary_counts Sample.toLowerCaseAscii Sample.world
             (Some (Array Sample.threeParts)) initial).
    vm_compute. reflexivity.
  - vm_compute. auto.
Defined.

(** ** The export *)

Lemma aiColumn_nth result i :
  aiColumn result i = orNA (option_map sa_partNumber (nth_error (aiAlternatives result) i)).
Proof.
  unfold aiColumn.
  destruct (i <? List.length (aiAlternatives result))%nat eqn:L.
  - apply Nat.ltb_lt in L. apply nth_error_Some in L.
    destruct (nth_error (aiAlternatives result) i); [reflexivity | congruence].
  - apply Nat.ltb_ge in L. apply nth_error_None in L. now rewrite L.
Qed.

(** C9. The row of a [PartResult] whose structured alternatives carry
    a label has seven columns: the original part, the part number and
    the label of the first structured alternative, the part numbers of
    the first three synthesized alternatives, and the status, with
    "N/A" wherever the alternative is absent. *)
Theorem exportRow_columns (result : PartResult) :
  Forall (fun alt => matchType alt <> []) (tiAlternatives result) ->
  exportRow result = spec_exportRow result /\
  List.length (exportRow result) = 7%nat.
Proof.
  intros H. split; [|reflexivity].
  unfold exportRow, spec_exportRow. rewrite !aiColumn_nth.
  destruct (tiAlternatives result) as [|first rest]; [reflexivity|].
  apply Forall_inv in H. cbn [hd_error option_map orNA].
  unfold or_else. destruct (matchType first); [contradiction|reflexivity].
Qed.

(** C9 (witness). *)
Lemma exportRow_columns_witness :
  Forall (fun alt => matchType alt <> []) (tiAlternatives Sample.okResult) /\
  exportRow Sample.okResult = spec_exportRow Sample.okResult /\
  List.length (exportRow Sample.okResult) = 7%nat.
Proof.
  assert (H : Forall (fun alt => matchType alt <> []) (tiAlternatives Sample.okResult))
    by (repeat constructor; discriminate).
  split; [exact H|]. exact (@exportRow_columns Sample.okResult H).
Defined.

(** ** The upload *)

Lemma extractPartNumbers_length rows :
  (List.length (extractPartNumbers rows) <= 10)%nat.
Proof. unfold extractPartNumbers, slice0. apply firstn_le_length. Qed.

(** C10. The list read from the sheet is cut to ten entries before it
    is checked, so the route never answers "Maximum 10 part numbers
    allowed"; a sheet with more than ten part numbers in its first
    column, once read and removed, is answered with the first ten. *)
Theorem bulkUpload_limit_unreachable (env : UploadEnv) (s : state) :
  snd (bulkUpload env s) <> Normal (Failed 400 (lit "Maximum 10 part numbers allowed")) /\
  forall rows,
    file env = true -> sheet env = inr rows -> unlink_result env = inr tt ->
    (10 < List.length (filter isPartCell (map firstCell rows)))%nat ->
    snd (bulkUpload env s)
    = Normal (Ok {| up_success := true;
                    up_partNumbers :=
                      firstn 10 (map trimCell (filter isPartCell (map firstCell rows)));
                    up_count := 10 |}).
Proof.
  unfold bulkUpload. destruct env as [f sh un cl]. cbn [file sheet unlink_result cleanup_result].
  split.
  - destruct f; [|cbn; intros [= H]; vm_compute in H; discriminate H].
    unfold message_or. run_monad. cbn [negb].
    destruct sh as [[m|]|rows]; cbn [snd].
    + destruct cl as [[?|]|[]]; cbn; intros [= H _]; discriminate H.
    + destruct cl as [[?|]|[]]; cbn; discriminate.
    + pose proof (extractPartNumbers_length rows) as L.
      destruct (List.length (extractPartNumbers rows) =? 0)%nat;
        [cbn; intros [= H]; vm_compute in H; discriminate H|].
      destruct (10 <? List.length (extractPartNumbers rows))%nat eqn:T;
        [apply Nat.ltb_lt in T; lia|].
      destruct un as [[m|]|[]]; cbn; try discriminate;
        destruct cl as [[?|]|[]]; cbn; try discriminate; intros [= H _]; discriminate H.
  - intros rows -> -> -> H. run_monad. cbn [negb].
    assert (L : List.length (extractPartNumbers rows) = 10%nat).
    { unfold extractPartNumbers, slice0. rewrite length_firstn, length_map. lia. }
    rewrite L. cbn. unfold extractPartNumbers, slice0. reflexivity.
Qed.

(** C10 (witness). *)
Lemma bulkUpload_limit_unreachable_witness :
  file Sample.upload = true /\
  sheet Sample.upload = inr Sample.elevenRows /\
  unlink_result Sample.upload = inr tt /\
  (10 < List.length (filter isPartCell (map firstCell Sample.elevenRows)))%nat /\
  snd (bulkUpload Sample.upload initial)
  = Normal (Ok {| up_success := true;
                  up_partNumbers :=
                    firstn 10 (map trimCell (filter isPartCell (map firstCell Sample.elevenRows)));
                  up_count := 10 |}).
Proof.
  assert (H : (10 < List.length (filter isPartCell (map firstCell Sample.elevenRows)))%nat)
    by (vm_compute; lia).
  repeat (split; [first [reflexivity | exact H]|]).
  exact (proj2 (bulkUpload_limit_unreachable Sample.upload initial)
           Sample.elevenRows eq_refl eq_refl eq_refl H).
Defined.

(* ------------------------------------------------------------------ *)
(** * Further properties of the server *)
(* ------------------------------------------------------------------ *)

(** ** The matcher against the meaning of a pattern *)

Module RegexMeaning.
Import Regex RegexFacts.

Lemma greedy_complete R p (k : js_string -> js_string -> option R) :
  forall m rest acc, forallb p m = true ->
  k (acc ++ m) rest <> None -> greedy p k acc (m ++ rest) <> None.
Proof.
  induction m as [|c m IH]; intros rest acc Hm Hk.
  - rewrite app_nil_r in Hk. cbn [app].
    destruct rest as [|c rest]; cbn [greedy]; [exact Hk|].
    destruct (p c); [|exact Hk].
    destruct (greedy p k (acc ++ [c]) rest); [discriminate | exact Hk].
  - cbn [forallb] in Hm. apply andb_true_iff in Hm. destruct Hm as [Hc Hm].
    cbn [app greedy]. rewrite Hc.
    specialize (IH rest (acc ++ [c]) Hm). rewrite <- app_assoc in IH.
    specialize (IH Hk).
    destruct (greedy p k (acc ++ [c]) (m ++ rest)); [discriminate | contradiction].
Qed.

Lemma lazy_complete R p (k : js_string -> js_string -> option R) :
  forall m rest acc, forallb p m = true ->
  k (acc ++ m) rest <> None -> lazy p k acc (m ++ rest) <> None.
Proof.
  induction m as [|c m IH]; intros rest acc Hm Hk.
  - rewrite app_nil_r in Hk. cbn [app].
    destruct rest as [|c rest]; cbn [lazy];
      (destruct (k acc _); [discriminate | contradiction]).
  - cbn [forallb] in Hm. apply andb_true_iff in Hm. destruct Hm as [Hc Hm].
    cbn [app lazy]. destruct (k acc (c :: m ++ rest)); [discriminate|].
    rewrite Hc. apply IH; [exact Hm|]. now rewrite <- app_assoc.
Qed.

(** Soundness: a match splits the input into pieces, and the groups
    are the pieces of the capturing atoms. *)
Lemma exec_sound r toEnd :
  forall s groups out, exec r toEnd s groups = Some out ->
  exists pieces, splitsAs r toEnd s pieces /\ out = groups ++ capturesOf r pieces.
Proof.
  induction r as [|a r IH]; intros s groups out H.
  - exists []. cbn [exec] in H. split.
    + split; [constructor|]. exists s. split; [reflexivity|].
      intros ->. destruct s; [reflexivity | discriminate].
    + cbn. rewrite app_nil_r. destruct toEnd; [destruct s|]; congruence.
  - assert (K : forall m rest,
               forallb (class a) m = true ->
               match quant a with
               | One => List.length m = 1%nat
               | Star => True
               | Plus | PlusLazy => m <> []
               end ->
               s = m ++ rest ->
               exec r toEnd rest (if capture a then groups ++ [m] else groups) = Some out ->
               exists pieces, splitsAs (a :: r) toEnd s pieces /\
                              out = groups ++ capturesOf (a :: r) pieces).
    { intros m rest Hm Hq -> E. apply IH in E.
      destruct E as (pieces & (HF & rest' & -> & Hend) & ->).
      exists (m :: pieces). split.
      - split; [constructor; [split; assumption | exact HF]|].
        exists rest'. cbn [List.concat]. rewrite <- app_assoc. auto.
      - cbn [capturesOf]. destruct (capture a); [rewrite <- app_assoc|]; reflexivity. }
    cbn [exec] in H. destruct (quant a) eqn:Q.
    + destruct s as [|c s]; [discriminate|]. destruct (class a c) eqn:Hc; [|discriminate].
      apply (K [c] s); [cbn; now rewrite Hc | reflexivity | reflexivity | exact H].
    + apply greedy_inv in H. destruct H as (m & rest & -> & Hm & H).
      apply (K m rest); [exact Hm | exact I | reflexivity | exact H].
    + destruct s as [|c s]; [discriminate|]. destruct (class a c) eqn:Hc; [|discriminate].
      apply greedy_inv in H. destruct H as (m & rest & -> & Hm & H).
      apply (K ([c] ++ m) rest);
        [cbn; now rewrite Hc | discriminate | reflexivity | exact H].
    + destruct s as [|c s]; [discriminate|]. destruct (class a c) eqn:Hc; [|discriminate].
      apply lazy_inv in H. destruct H as (m & rest & -> & Hm & H).
      apply (K ([c] ++ m) rest);
        [cbn; now rewrite Hc | discriminate | reflexivity | exact H].
Qed.

(** Completeness: backtracking finds a match whenever the input can be
    split. *)
Lemma exec_complete r toEnd :
  forall s groups pieces, splitsAs r toEnd s pieces -> exec r toEnd s groups <> None.
Proof.
  induction r as [|a r IH]; intros s groups pieces (HF & rest & -> & Hend).
  - inversion HF; subst. cbn. destruct toEnd; [|discriminate].
    rewrite (Hend eq_refl). discriminate.
  - inversion HF as [|a' m r' pieces' [Hm Hq] HF']; subst.
    cbn [List.concat]. rewrite <- app_assoc.
    assert (K : forall g, exec r toEnd (List.concat pieces' ++ rest) g <> None).
    { intros g. apply (IH _ g pieces'). split; [exact HF'|]. exists rest. auto. }
    cbn [exec]. destruct (quant a) eqn:Q.
    + destruct m as [|c [|c' m]]; try discriminate Hq.
      cbn in Hm. rewrite andb_true_r in Hm. cbn [app]. rewrite Hm. apply K.
    + apply greedy_complete; [exact Hm | apply K].
    + destruct m as [|c m]; [contradiction|].
      cbn in Hm. apply andb_true_iff in Hm. destruct Hm as [Hc Hm].
      cbn [app]. rewrite Hc.
      apply (greedy_complete (class a) _ m (List.concat pieces' ++ rest) [c]); [exact Hm | apply K].
    + destruct m as [|c m]; [contradiction|].
      cbn in Hm. apply andb_true_iff in Hm. destruct Hm as [Hc Hm].
      cbn [app]. rewrite Hc.
      apply (lazy_complete (class a) _ m (List.concat pieces' ++ rest) [c]); [exact Hm | apply K].
Qed.

End RegexMeaning.

(** The matcher decides the meaning of a pattern: [re.test(s)] holds
    exactly when [s] starts with one piece per atom, and [s.match(re)]
    for a pattern ending in [$] succeeds exactly when [s] is made of
    such pieces; the captured groups are pieces of such a split. *)
Lemma regex_exec_correct (r : list Regex.atom) (s : js_string) :
  (Regex.test r s = true <-> exists pieces, splitsAs r false s pieces) /\
  (Regex.matchAll r s <> None <-> exists pieces, splitsAs r true s pieces) /\
  (forall groups, Regex.matchAll r s = Some groups ->
     exists pieces, splitsAs r true s pieces /\ groups = capturesOf r pieces).
Proof.
  unfold Regex.test, Regex.matchAll. repeat split.
  - destruct (Regex.exec r false s []) as [out|] eqn:E; [|discriminate].
    intros _. apply RegexMeaning.exec_sound in E. destruct E as (pieces & H & _).
    now exists pieces.
  - intros (pieces & H). apply (@RegexMeaning.exec_complete r false s [] pieces) in H.
    destruct (Regex.exec r false s []); [reflexivity | contradiction].
  - destruct (Regex.exec r true s []) as [out|] eqn:E; [|contradiction].
    intros _. apply RegexMeaning.exec_sound in E. destruct E as (pieces & H & _).
    now exists pieces.
  - intros (pieces & H). now apply (@RegexMeaning.exec_complete r true s [] pieces) in H.
  - intros groups E. apply RegexMeaning.exec_sound in E.
    destruct E as (pieces & H & ->). now exists pieces.
Qed.

(** ** What [trim] keeps *)

Lemma trimStart_split s :
  exists a, s = a ++ trimStart s /\ forallb isWhiteSpace a = true.
Proof.
  induction s as [|c s (a & E & Ha)]; [exists []; auto|].
  cbn [trimStart]. destruct (isWhiteSpace c) eqn:Hc.
  - exists (c :: a). cbn. rewrite Hc, Ha. split; [now rewrite <- E | reflexivity].
  - exists []. auto.
Qed.

Lemma trimStart_clean s : startsClean (trimStart s).
Proof.
  induction s as [|c s IH]; [exact I|].
  cbn [trimStart]. destruct (isWhiteSpace c) eqn:Hc; [exact IH | exact Hc].
Qed.

Lemma forallb_rev {A} (p : A -> bool) l : forallb p (rev l) = forallb p l.
Proof.
  induction l as [|a l IH]; [reflexivity|].
  cbn. rewrite forallb_app, IH. cbn. rewrite andb_true_r. apply andb_comm.
Qed.

Lemma trimEnd_split s :
  exists b, s = trimEnd s ++ b /\ forallb isWhiteSpace b = true.
Proof.
  unfold trimEnd. destruct (trimStart_split (rev s)) as (a & E & Ha).
  exists (rev a). split; [|now rewrite forallb_rev].
  rewrite <- rev_app_distr, <- E. symmetry. apply rev_involutive.
Qed.

Lemma trimEnd_clean s : endsClean (trimEnd s).
Proof. unfold endsClean, trimEnd. rewrite rev_involutive. apply trimStart_clean. Qed.

Lemma trimEnd_startsClean s : startsClean s -> startsClean (trimEnd s).
Proof.
  intros H. destruct (trimEnd_split s) as (b & E & _).
  destruct (trimEnd s) as [|c t]; [exact I|].
  rewrite E in H. exact H.
Qed.

Lemma startsClean_trimStart s : startsClean s -> trimStart s = s.
Proof. destruct s as [|c s]; [reflexivity|]. cbn. now intros ->. Qed.

(** [trim] drops white space at both ends and nothing else: the result
    sits in the input between two runs of white space, starts and ends
    with other characters, and [trim] leaves it as it is. *)
Lemma trim_spec (s : js_string) :
  (exists a b, s = a ++ trim s ++ b /\
               forallb isWhiteSpace a = true /\ forallb isWhiteSpace b = true) /\
  startsClean (trim s) /\ endsClean (trim s) /\
  trim (trim s) = trim s.
Proof.
  assert (C1 : startsClean (trim s))
    by (unfold trim; apply trimEnd_startsClean, trimStart_clean).
  assert (C2 : endsClean (trim s)) by (unfold trim; apply trimEnd_clean).
  split; [|split; [exact C1|split; [exact C2|]]].
  - unfold trim. destruct (trimStart_split s) as (a & E & Ha).
    destruct (trimEnd_split (trimStart s)) as (b & E' & Hb).
    exists a, b. split; [|auto]. now rewrite <- E', <- E.
  - unfold trim at 1. rewrite (@startsClean_trimStart _ C1).
    unfold trimEnd. unfold endsClean in C2.
    rewrite (@startsClean_trimStart _ C2). apply rev_involutive.
Qed.

(** ** Which reply lines the parser keeps *)

Lemma pieceOf_char x m :
  pieceOf (Regex.Atom (Regex.char x) Regex.One false) m -> m = [x].
Proof.
  intros [Hc Hl]. cbn in *. destruct m as [|c [|c' m]]; try discriminate Hl.
  cbn in Hc. rewrite andb_true_r in Hc. unfold Regex.char in Hc.
  apply N.eqb_eq in Hc. now subst.
Qed.

Lemma threeFields_split line pieces :
  splitsAs Regex.threeFields true line pieces ->
  exists part desc mfr,
    threeFieldSplit line part desc mfr /\
    capturesOf Regex.threeFields pieces = [part; desc; mfr].
Proof.
  intros (HF & rest & -> & Hend). rewrite (Hend eq_refl), app_nil_r.
  unfold Regex.threeFields in *.
  repeat match goal with
  | H : Forall2 _ (_ :: _) _ |- _ => inversion H; clear H; subst
  | H : Forall2 _ [] _ |- _ => inversion H; clear H; subst
  end.
  repeat match goal with
  | H : pieceOf (Regex.Atom (Regex.char _) Regex.One false) _ |- _ =>
      apply pieceOf_char in H; subst
  | H : pieceOf _ _ |- _ => destruct H as [? ?]
  end.
  cbn [Regex.class Regex.quant Regex.capture] in *.
  match goal with
  | |- context [List.concat [?d; _; ?w1; ?part; ?w2; _; ?w3; ?desc; ?w4; _; ?w5; ?mfr]] =>
      exists part, desc, mfr; split;
      [exists d, w1, w2, w3, w4, w5 | reflexivity]
  end.
  cbn [List.concat]. rewrite app_nil_r.
  repeat split; auto; now rewrite <- ?app_assoc.
Qed.



Lemma matchAll_threeFields line out :
  Regex.matchAll Regex.threeFields line = Some out ->
  exists part desc mfr, threeFieldSplit line part desc mfr /\ out = [part; desc; mfr].
Proof.
  intros E.
  destruct (proj2 (proj2 (regex_exec_correct Regex.threeFields line)) out E)
    as (pieces & Hs & ->).
  destruct (threeFields_split Hs) as (part & desc & mfr & Hsplit & Hc).
  exists part, desc, mfr. auto.
Qed.

Lemma parseLine_some line alt :
  parseLine line = Some alt ->
  exists part desc mfr,
    threeFieldSplit line part desc mfr /\
    alt = {| sa_partNumber := part;
             sa_description := trim desc;
             sa_manufacturer := trim mfr |}.
Proof.
  unfold parseLine.
  destruct (Regex.matchAll Regex.threeFields line) as [out|] eqn:E; [|discriminate].
  destruct (@matchAll_threeFields _ _ E) as (part & desc & mfr & Hsplit & ->).
  intros [= <-].
    exists part, desc, mfr. split; [exact Hsplit|].
    destruct Hsplit as (d & w1 & w2 & w3 & w4 & w5 & _ & H).
    decompose [and] H; clear H.
    rewrite (@trim_no_space part); [reflexivity|].
    match goal with Hp : forallb Regex.partChar part = true |- _ => revert Hp end.
    apply forallb_impl. intros c Hc'. now rewrite (@partChar_not_space c Hc').
Qed.



Lemma dot_not_terminator c : Regex.dot c = negb (isLineTerminator c).
Proof. reflexivity. Qed.

(** X2. Lines the parser always drops: a line that does not start with a
    digit (so any line indented with white space), a line whose last
    character is a line terminator (so every line of a reply with CRLF
    line ends but the last), and a line with fewer than two hyphens. *)
Theorem parseLine_drops (line : js_string) :
  match line with c :: _ => Regex.digit c = false | [] => True end \/
  (exists init c, line = init ++ [c] /\ isLineTerminator c = true) \/
  (count_occ N.eq_dec line 45%N < 2)%nat ->
  parseLine line = None.
Proof.
  intros H. destruct (parseLine line) as [alt|] eqn:E; [exfalso|reflexivity].
  apply parseLine_some in E.
  destruct E as (part & desc & mfr & (d & w1 & w2 & w3 & w4 & w5 & -> & Hs) & _).
  decompose [and] Hs; clear Hs.
  destruct H as [H | [(init & c & E & Hc) | H]].
  - destruct d as [|c d]; [congruence|]. cbn in *.
    match goal with Hd : Regex.digit c && _ = true |- _ =>
      apply andb_true_iff in Hd; destruct Hd as [Hd _]; congruence end.
  - destruct (exists_last (l:=mfr)) as (m & c' & ->); [assumption|].
    rewrite !app_assoc in E. apply app_inj_tail in E. destruct E as [_ <-].
    match goal with Hm : forallb Regex.dot (m ++ [c']) = true |- _ =>
      rewrite forallb_app in Hm; cbn in Hm; rewrite andb_true_r in Hm;
      apply andb_true_iff in Hm; destruct Hm as [_ Hm];
      rewrite dot_not_terminator, Hc in Hm; discriminate Hm end.
  - rewrite !count_occ_app in H. cbn [count_occ] in H.
    destruct (N.eq_dec 45 45) as [_|N]; [lia | congruence].
Qed.

(** X3. The fields of every parsed entry: the part number is made of the
    characters A-Z, 0-9, hyphen, dot and slash only; the description
    and the manufacturer carry no white space at either end and no
    line terminator. *)
Theorem parseAiAlternatives_fields (content : js_string) :
  Forall (fun alt =>
            forallb Regex.partChar (sa_partNumber alt) = true /\
            (startsClean (sa_description alt) /\ endsClean (sa_description alt) /\
             forallb Regex.dot (sa_description alt) = true) /\
            (startsClean (sa_manufacturer alt) /\ endsClean (sa_manufacturer alt) /\
             forallb Regex.dot (sa_manufacturer alt) = true))
         (parseAiAlternatives content).
Proof.
  apply Forall_forall. intros alt H. unfold parseAiAlternatives in H.
  apply (@In_slice0 _ 3), In_dropNull in H. destruct H as (line & _ & Hp).
  apply parseLine_some in Hp.
  destruct Hp as (part & desc & mfr & (d & w1 & w2 & w3 & w4 & w5 & _ & Hs) & ->).
  decompose [and] Hs; clear Hs. cbn [sa_partNumber sa_description sa_manufacturer].
  assert (T : forall m, forallb Regex.dot m = true ->
            startsClean (trim m) /\ endsClean (trim m) /\ forallb Regex.dot (trim m) = true).
  { intros m Hm. destruct (trim_spec m) as ((a & b & E & _) & C1 & C2 & _).
    split; [exact C1|]. split; [exact C2|].
    rewrite E, !forallb_app in Hm.
    apply andb_true_iff in Hm. destruct Hm as [_ Hm].
    apply andb_true_iff in Hm. now destruct Hm. }
  auto.
Qed.

(** ** More on the extractor *)

Section ExtractorMore.

Variable toLowerCase : js_string -> js_string.


(** X5. When the extractor raises: a failed shutdown of a launched browser
    always reaches the caller, whatever the page gave; apart from
    that, only a rejection with [null] or [undefined] does, as the
    [TypeError] of the handler that reads its message. *)
Theorem scrape_raises env part s err :
  (resolved (launch_result env) = true -> close_result env = inl err ->
   snd (scrapeTICrossReference toLowerCase env part s) = Throw err) /\
  (snd (scrapeTICrossReference toLowerCase env part s) = Throw err ->
   (resolved (launch_result env) = true /\ close_result env = inl err) \/
   (err = messageTypeError /\ extractionReadable env = false)).
Proof.
  split.
  - scrape_cases env; intros H1 H2; try discriminate; congruence.
  - scrape_cases env; intros [= <-]; auto.
Qed.

(** X6. Only the ancestors below [document.body] bear on the label. *)
Theorem inferMatchType_belowBody (e : element) :
  inferMatchType toLowerCase e = inferMatchType toLowerCase (belowBody e).
Proof.
  induction e as [|text isBody parent IH]; [reflexivity|].
  cbn [belowBody]. destruct isBody; [reflexivity|].
  cbn [inferMatchType]. now rewrite IH.
Qed.


End ExtractorMore.


(** Witness of [scrape_raises]. *)
Lemma scrape_raises_witness :
  resolved (launch_result Sample.closeFails) = true /\
  close_result Sample.closeFails
    = inl (Error (lit "Protocol error (Browser.close): Target closed")) /\
  snd (scrapeTICrossReference Sample.toLowerCaseAscii Sample.closeFails (lit "LM317") initial)
  = Throw (Error (lit "Protocol error (Browser.close): Target closed")).
Proof.
  split; [reflexivity|]. split; [reflexivity|].
  apply (proj1 (@scrape_raises Sample.toLowerCaseAscii Sample.closeFails (lit "LM317") initial
                  (Error (lit "Protocol error (Browser.close): Target closed"))));
    reflexivity.
Defined.

(** ** The search *)

Lemma mapM_toEvidence_run l s :
  fst (mapM toEvidence l s) = s /\
  (forallb isItem l = true -> snd (mapM toEvidence l s) = Normal (map evidenceOf l)).
Proof.
  induction l as [|it l [IHs IHr]]; [split; reflexivity|].
  destruct it as [|t k sn]; [split; [reflexivity | discriminate]|].
  cbn [mapM toEvidence]. cbv beta iota delta [bind ret].
  destruct (mapM toEvidence l s) as [s' [x|e]]; cbn [fst snd] in *; subst s'.
  - split; [reflexivity|]. intros H. cbn in H. specialize (IHr H).
    injection IHr as ->. cbn. unfold or_else. destruct sn as [[|c x]|]; reflexivity.
  - split; [reflexivity|]. intros H. cbn in H. specialize (IHr H). discriminate IHr.
Qed.

(** X8. The search sends at most one request, and none at all when a
    credential is missing or the part number cannot be encoded: it
    then raises before anything leaves the process. *)
Theorem googleSearch_request env part s :
  trace (fst (googleSearch env part s))
  = trace s ++ (if searchReady env part then [GoogleFetch part] else []) /\
  (searchReady env part = false -> exists e, googleSearch env part s = (s, Throw e)).
Proof.
  unfold googleSearch, searchReady.
  destruct (configured (GOOGLE_API_KEY env)); cbn [negb orb andb];
    [|rewrite app_nil_r; split; [reflexivity | eexists; reflexivity]].
  destruct (configured (GOOGLE_CX env)); cbn [negb orb andb];
    [|rewrite app_nil_r; split; [reflexivity | eexists; reflexivity]].
  destruct (wellFormed part); cbn [negb];
    [|rewrite app_nil_r; split; [reflexivity | eexists; reflexivity]].
  split; [|discriminate].
  rewrite bind_run. unfold call, throw.
  destruct (google_fetch env) as [e|r]; cbn [outcome]; [reflexivity|].
  destruct (negb (g_ok r)); [reflexivity|].
  rewrite bind_run.
  destruct (g_json r) as [e|[|items]]; cbn [outcome]; try reflexivity.
  destruct (mapM_toEvidence_run (match items with Some l => l | None => [] end)
              {| trace := trace s ++ [GoogleFetch part]; browser := browser s |}) as [E _].
  rewrite E. reflexivity.
Qed.

(** X9. A 2xx answer with an array of hits gives one evidence item per
    hit, in order, with the snippet defaulted to the empty string; an
    answer without such an array gives no evidence. *)
Theorem googleSearch_items env part s r items :
  searchReady env part = true ->
  google_fetch env = inr r -> g_ok r = true -> g_json r = inr (Data items) ->
  forallb isItem (match items with Some l => l | None => [] end) = true ->
  snd (googleSearch env part s)
  = Normal (map evidenceOf (match items with Some l => l | None => [] end)).
Proof.
  unfold googleSearch, searchReady. intros H Hf Hok Hj Hi.
  repeat (apply andb_true_iff in H; destruct H as [H ?]).
  repeat match goal with Hb : _ = true |- _ => rewrite Hb end.
  cbn [negb orb]. rewrite bind_run. unfold call. rewrite Hf. cbn [outcome].
  rewrite Hok. cbn [negb]. rewrite bind_run, Hj. cbn [outcome].
  now apply mapM_toEvidence_run.
Qed.

(** Witness of [googleSearch_request]. *)
Lemma googleSearch_request_witness :
  searchReady Sample.noSearch (lit "LM317") = false /\
  exists e, googleSearch Sample.noSearch (lit "LM317") initial = (initial, Throw e).
Proof.
  split; [reflexivity|].
  apply (proj2 (googleSearch_request Sample.noSearch (lit "LM317") initial)).
  reflexivity.
Defined.

(** Witness of [googleSearch_items]. *)
Lemma googleSearch_items_witness :
  snd (googleSearch Sample.searchWorks (lit "LM317") initial)
  = Normal (map evidenceOf Sample.searchHits).
Proof.
  apply (@googleSearch_items Sample.searchWorks (lit "LM317") initial
           {| g_ok := true; g_status := lit "200"; g_text := inr [];
              g_json := inr (Data (Some Sample.searchHits)) |}
           (Some Sample.searchHits)); reflexivity.
Defined.

(** ** More on the batch route *)

Section BatchMore.

Variable toLowerCase : js_string -> js_string.

Lemma synthesize_throws env part items ti s :
  readable (openai_fetch env) = true ->
  match openai_fetch env with inr r => readable (ai_json r) | inl _ => true end = true ->
  snd (synthesize env part items ti s) <> Throw Nullish.
Proof.
  unfold synthesize. intros Hf Hj. run_monad.
  destruct (openai_fetch env) as [[m|]|r]; cbn [snd readable] in *; try discriminate.
  destruct (ai_ok r); cbn [snd]; [|discriminate].
  destruct (ai_json r) as [[m|]|[| |content]]; cbn [snd readable] in *; discriminate.
Qed.

Lemma synthesize_returns env part items ti s ai :
  snd (synthesize env part items ti s) = Normal ai ->
  ai = [] \/ exists content, ai = parseAiAlternatives content.
Proof.
  unfold synthesize. run_monad.
  destruct (openai_fetch env) as [[m|]|r]; cbn [snd]; try discriminate.
  destruct (ai_ok r); cbn [snd]; [|intros [= <-]; auto].
  destruct (ai_json r) as [[m|]|[| |content]]; cbn [snd]; try discriminate.
  intros [= <-]. eauto.
Qed.

(** The two ways a turn of the loop can end, with what is known of
    the alternatives. *)
Lemma processPart_cases env part acc s :
  exists s',
    (exists ti ai,
       processPart toLowerCase env part acc s
       = (s', Normal (fst acc ++ [successResult part ti ai], snd acc)) /\
       Forall wellFormedAlternative ti)
    \/
    (processPart toLowerCase env part acc s
     = (s', Normal (fst acc ++ [errorResult part
                                  (Some (lit "Cannot read properties of null (reading 'message')"))],
                    snd acc ++ [{| pe_partNumber := part;
                                   pe_error := Some (lit "Cannot read properties of null (reading 'message')") |}]))
     /\ partReadable env = false).
Proof.
  destruct (processPart toLowerCase env part acc s) as [s' c] eqn:E.
  exists s'. revert E. unfold processPart, partReadable.
  repeat match goal with
  | |- context [try_catch ?m (fun e => bind (log_message e) (fun _ => ret []))] =>
      change (try_catch m (fun e => bind (log_message e) (fun _ => ret [])))
        with (guarded m)
  end.
  rewrite try_catch_run, bind_run, guarded_run.
  pose proof (@scrape_throws toLowerCase (puppeteer env) part s Nullish) as T1.
  pose proof (@scrape_returns toLowerCase (puppeteer env) part s) as R1.
  destruct (scrapeTICrossReference toLowerCase (puppeteer env) part s) as [s1 [ti|[m1|]]];
    cbv beta iota.
  3: { intros [= <- <-]. right. split; [reflexivity|].
       destruct (T1 eq_refl) as [T|T]; [discriminate T|].
       rewrite T. reflexivity. }
  all: try (assert (W1 : Forall wellFormedAlternative ti)
           by (destruct (R1 ti eq_refl) as [-> | (els & _ & _ & ->)];
               [constructor | apply extractAlternatives_wellFormed]));
    clear T1 R1.
  all: rewrite bind_run, guarded_run;
    pose proof (@googleSearch_throws (google env) part s1) as T2;
    destruct (googleSearch (google env) part s1) as [s2 [items|[m2|]]];
    cbv beta iota.
  3,6: intros [= <- <-]; right; split; [reflexivity|];
       destruct (readable (google_fetch (google env))) eqn:Q1;
       [|now rewrite andb_false_r];
       destruct (match google_fetch (google env) with
                 | inr r => readable (g_json r) | inl _ => true end) eqn:Q2;
       [exfalso; now apply T2 | now rewrite !andb_false_r].
  all: clear T2; rewrite bind_run;
    match goal with
    | |- context [try_catch ?m (fun e => bind (log_message e) (fun _ => ret []))] =>
        change (try_catch m (fun e => bind (log_message e) (fun _ => ret [])))
          with (guarded m)
    end;
    rewrite guarded_run;
    match goal with
    | |- context [synthesize ?e ?p ?i ?t ?st] =>
        pose proof (@synthesize_throws e p i t st) as T3;
        destruct (synthesize e p i t st) as [s3 [ai|[m3|]]]
    end; cbv beta iota; intros [= <- <-].
  all: first
    [ left; exists ti, ai; split; [reflexivity | assumption]
    | left; exists ti, []; split; [reflexivity | assumption]
    | left; exists [], ai; split; [reflexivity | constructor]
    | left; exists [], []; split; [reflexivity | constructor]
    | right; split; [reflexivity|];
      destruct (readable (openai_fetch (openai env))) eqn:Q1;
      [|now rewrite ?andb_false_r];
      destruct (match openai_fetch (openai env) with
                | inr r => readable (ai_json r) | inl _ => true end) eqn:Q2;
      [exfalso; now apply T3 | now rewrite ?andb_false_r] ].
Qed.


Lemma forEachPart_invariant env
    (P : nat -> list PartResult -> list PartError -> state -> Prop) :
  forall parts i acc s,
  P i (fst acc) (snd acc) s ->
  (forall j part acc s,
     (i <= j < i + List.length parts)%nat -> P j (fst acc) (snd acc) s ->
     exists s' rs es,
       processPart toLowerCase (env j) part acc s = (s', Normal (rs, es)) /\
       P (S j) rs es s') ->
  exists s' rs es,
    forEachPart toLowerCase env i parts acc s = (s', Normal (rs, es)) /\
    P (i + List.length parts)%nat rs es s'.
Proof.
  induction parts as [|part parts IH]; intros i acc s H0 Hstep.
  - exists s, (fst acc), (snd acc). cbn. rewrite Nat.add_0_r.
    destruct acc; auto.
  - cbn [forEachPart]. rewrite bind_run.
    destruct (Hstep i part acc s) as (s1 & rs1 & es1 & E1 & H1);
      [cbn [List.length]; lia | exact H0 |].
    rewrite E1.
    destruct (IH (S i) (rs1, es1) s1 H1) as (s' & rs & es & E & H).
    { intros j p a st Hj. apply Hstep. cbn [List.length]. lia. }
    exists s', rs, es. split; [exact E|].
    cbn [List.length]. now rewrite Nat.add_succ_r.
Qed.

Lemma bulkProcess_loop env parts s s' rs es :
  (1 <= List.length parts <= 10)%nat ->
  forEachPart toLowerCase env 0 parts ([], []) s = (s', Normal (rs, es)) ->
  bulkProcess toLowerCase env (Some (Array parts)) s
  = (s', Normal (Ok {| success := true; results := rs; errors := es;
                       totalProcessed := List.length rs;
                       successCount := countSuccess rs;
                       errorCount := List.length es |})).
Proof.
  intros [Hlo Hhi] E. unfold bulkProcess.
  destruct parts as [|p parts]; [cbn in Hlo; lia|].
  assert (L : (10 <? List.length (p :: parts))%nat = false) by (apply Nat.ltb_ge; exact Hhi).
  rewrite L, try_catch_run, bind_run, E. reflexivity.
Qed.


(** X11. Every result of a summary has the shape of a [PartResult]: at most
    one structured alternative, well formed, at most three synthesized
    ones; marked "success" without a message, or marked "error" with
    the handler's message and no alternative at all. *)
Theorem bulkProcess_result_shape env body s s' summary :
  bulkProcess toLowerCase env body s = (s', Normal (Ok summary)) ->
  Forall resultShape (results summary).
Proof.
  destruct body as [[| |parts]|]; try (cbn; congruence).
  2: { intros E. vm_compute in E. discriminate E. }
  destruct (Nat.le_gt_cases (List.length parts) 10) as [Hhi|Hhi].
  2: { destruct (@bulkProcess_over_limit toLowerCase env parts s Hhi)
         as (msg & E). rewrite E. congruence. }
  destruct parts as [|p parts]; [cbn; congruence|].
  destruct (@forEachPart_invariant env (fun _ rs _ _ => Forall resultShape rs)
              (p :: parts) 0%nat ([], []) s) as (s1 & rs & es & E & H).
  { constructor. }
  { intros j part acc st _ Hacc.
    destruct (processPart_cases (env j) part acc st) as (st' & [(ti & ai & E & W) | (E & _)]);
      rewrite E; do 3 eexists; (split; [reflexivity|]);
      apply Forall_app; (split; [exact Hacc|]); (constructor; [|constructor]).
    - unfold resultShape, successResult, slice0; cbn [tiAlternatives aiAlternatives status error].
      split; [apply firstn_le_length|]. split; [apply firstn_le_length|].
      split; [|left; auto].
      apply Forall_forall. intros a Ha. rewrite Forall_forall in W. apply W.
      rewrite <- (firstn_skipn 1 ti). apply in_or_app. now left.
    - unfold resultShape, errorResult; cbn [tiAlternatives aiAlternatives status error].
      split; [cbn; lia|]. split; [cbn; lia|]. split; [constructor|]. right. auto. }
  rewrite (@bulkProcess_loop env (p :: parts) s s1 rs es) by (cbn [List.length] in *; auto; lia).
  intros [= <- <-]. exact H.
Qed.

(** X12. When no call rejects with [null] or [undefined], every part of an
    accepted batch is marked "success": [errors] is empty,
    [errorCount] is 0 and [successCount] is the number of parts,
    whatever else fails. *)
Theorem bulkProcess_all_success env parts s :
  (1 <= List.length parts <= 10)%nat ->
  (forall i, (i < List.length parts)%nat -> partReadable (env i) = true) ->
  exists s' summary,
    bulkProcess toLowerCase env (Some (Array parts)) s = (s', Normal (Ok summary)) /\
    errors summary = [] /\ errorCount summary = 0%nat /\
    successCount summary = List.length parts /\
    totalProcessed summary = List.length parts /\
    Forall (fun r => status r = lit "success" /\ error r = None) (results summary).
Proof.
  intros Hlen Hread.
  destruct (@forEachPart_invariant env
              (fun j rs es _ => es = [] /\ List.length rs = j /\ countSuccess rs = j /\
                 Forall (fun r => status r = lit "success" /\ error r = None) rs)
              parts 0%nat ([], []) s) as (s1 & rs & es & E & -> & Hl & Hc & HF).
  { cbn. auto. }
  { intros j part acc st Hj (He & Hl & Hc & HF).
    destruct (processPart_cases (env j) part acc st) as (st' & [(ti & ai & E & W) | (E & R)]).
    - rewrite E. do 3 eexists. split; [reflexivity|].
      split; [exact He|]. rewrite length_app, countSuccess_app, Hl, Hc. cbn.
      split; [lia|]. split; [lia|]. apply Forall_app. split; [exact HF|].
      constructor; [split; reflexivity | constructor].
    - rewrite Hread in R by lia. discriminate R. }
  rewrite (@bulkProcess_loop env parts s s1 rs [] Hlen E).
  do 2 eexists. split; [reflexivity|]. cbn in *. auto.
Qed.

End BatchMore.

(** Witness of [bulkProcess_result_shape]. *)
Lemma bulkProcess_result_shape_witness :
  exists s' summary,
    bulkProcess Sample.toLowerCaseAscii Sample.world (Some (Array Sample.threeParts)) initial
      = (s', Normal (Ok summary)) /\
    Forall resultShape (results summary).
Proof.
  do 2 eexists. split; [vm_compute; reflexivity|].
  eapply (@bulkProcess_result_shape Sample.toLowerCaseAscii Sample.world
            (Some (Array Sample.threeParts)) initial).
  vm_compute. reflexivity.
Defined.

(** Witness of [bulkProcess_all_success]. *)
Lemma bulkProcess_all_success_witness :
  exists s' summary,
    bulkProcess Sample.toLowerCaseAscii Sample.world
      (Some (Array [lit "LM317"; lit "TPS7A49"])) initial = (s', Normal (Ok summary)) /\
    errors summary = [] /\ errorCount summary = 0%nat /\
    successCount summary = 2%nat /\
    totalProcessed summary = 2%nat /\
    Forall (fun r => status r = lit "success" /\ error r = None) (results summary).
Proof.
  apply (@bulkProcess_all_success Sample.toLowerCaseAscii Sample.world
           [lit "LM317"; lit "TPS7A49"] initial).
  - cbn. lia.
  - intros [|[|i]] H; [reflexivity | reflexivity | cbn in H; lia].
Defined.

(** ** Browsers of a batch *)

Lemma launches_app t t' : launches (t ++ t') = (launches t + launches t')%nat.
Proof. unfold launches. now rewrite filter_app, length_app. Qed.

Lemma closes_app t t' : closes (t ++ t') = (closes t + closes t')%nat.
Proof. unfold closes. now rewrite filter_app, length_app. Qed.

Lemma launchedCount_S env j :
  launchedCount env 0 (S j)
  = (launchedCount env 0 j
     + if resolved (launch_result (puppeteer (env j))) then 1 else 0)%nat.
Proof.
  unfold launchedCount. rewrite seq_S, filter_app, length_app. cbn [filter Nat.add].
  destruct (resolved (launch_result (puppeteer (env j)))); reflexivity.
Qed.

Section Browsers.

Variable toLowerCase : js_string -> js_string.

Lemma scrape_calls env part s :
  exists t, trace (fst (scrapeTICrossReference toLowerCase env part s)) = trace s ++ t /\
    launches t = 1%nat /\
    closes t = if resolved (launch_result env) then 1%nat else 0%nat.
Proof.
  scrape_cases env; rewrite <- ?app_assoc; cbn [app];
    (eexists; split; [reflexivity|]); cbn; auto.
Qed.

Lemma googleSearch_calls env part s :
  exists t, trace (fst (googleSearch env part s)) = trace s ++ t /\
    launches t = 0%nat /\ closes t = 0%nat.
Proof.
  unfold googleSearch.
  destruct (negb (configured (GOOGLE_API_KEY env)) || negb (configured (GOOGLE_CX env)));
    [exists []; rewrite app_nil_r; auto|].
  destruct (negb (wellFormed part)); [exists []; rewrite app_nil_r; auto|].
  exists [GoogleFetch part]. split; [|auto].
  rewrite bind_run. unfold call, throw.
  destruct (google_fetch env) as [e|r]; cbn [outcome]; [reflexivity|].
  destruct (negb (g_ok r)); [reflexivity|].
  rewrite bind_run.
  destruct (g_json r) as [e|[|items]]; cbn [outcome]; try reflexivity.
  destruct (mapM_toEvidence_run (match items with Some l => l | None => [] end)
              {| trace := trace s ++ [GoogleFetch part]; browser := browser s |}) as [E _].
  rewrite E. reflexivity.
Qed.

Lemma synthesize_calls env part items ti s :
  exists t, trace (fst (synthesize env part items ti s)) = trace s ++ t /\
    launches t = 0%nat /\ closes t = 0%nat.
Proof.
  exists [OpenAIFetch part (slice0 6 items) ti]. split; [|auto].
  unfold synthesize. run_monad.
  destruct (openai_fetch env) as [e|r]; [reflexivity|].
  destruct (ai_ok r); [|reflexivity].
  destruct (ai_json r) as [e|[| |content]]; reflexivity.
Qed.

(** A turn of the loop launches one browser and shuts it down if the
    launch succeeded. *)
Lemma processPart_calls env part acc s :
  exists t, trace (fst (processPart toLowerCase env part acc s)) = trace s ++ t /\
    launches t = 1%nat /\
    closes t = if resolved (launch_result (puppeteer env)) then 1%nat else 0%nat.
Proof.
  unfold processPart.
  repeat match goal with
  | |- context [try_catch ?m (fun e => bind (log_message e) (fun _ => ret []))] =>
      change (try_catch m (fun e => bind (log_message e) (fun _ => ret [])))
        with (guarded m)
  end.
  rewrite try_catch_run, bind_run, guarded_run.
  destruct (scrape_calls (puppeteer env) part s) as (t1 & E1 & L1 & C1).
  destruct (scrapeTICrossReference toLowerCase (puppeteer env) part s) as [s1 [ti|[m1|]]];
    cbn [fst] in E1; cbv beta iota;
    [ | | exists t1; cbn; auto ].
  all: rewrite bind_run, guarded_run;
    destruct (googleSearch_calls (google env) part s1) as (t2 & E2 & L2 & C2);
    destruct (googleSearch (google env) part s1) as [s2 [items|[m2|]]];
    cbn [fst] in E2; cbv beta iota;
    [ | | exists (t1 ++ t2); cbn;
          rewrite E2, E1, app_assoc, launches_app, closes_app, L1, L2, C1, C2;
          split; [reflexivity | split; [lia | destruct (resolved _); lia]] ].
  all: rewrite bind_run;
    match goal with
    | |- context [try_catch ?m (fun e => bind (log_message e) (fun _ => ret []))] =>
        change (try_catch m (fun e => bind (log_message e) (fun _ => ret [])))
          with (guarded m)
    end;
    rewrite guarded_run;
    match goal with
    | |- context [synthesize ?e ?p ?i ?t ?st] =>
        destruct (synthesize_calls e p i t st) as (t3 & E3 & L3 & C3);
        destruct (synthesize e p i t st) as [s3 [ai|[m3|]]]
    end; cbn [fst] in E3; cbv beta iota;
    exists (t1 ++ t2 ++ t3); cbn;
    rewrite E3, E2, E1, !launches_app, !closes_app, L1, L2, L3, C1, C2, C3, <- !app_assoc;
    (split; [reflexivity | split; [lia | destruct (resolved _); lia]]).
Qed.

(** X13. An accepted batch launches one browser per part number and shuts
    down every browser it launched: the trace holds as many launches
    as parts, and as many shutdowns as launches that succeeded. *)
Theorem bulkProcess_browsers env parts s :
  (1 <= List.length parts <= 10)%nat ->
  exists t, trace (fst (bulkProcess toLowerCase env (Some (Array parts)) s)) = trace s ++ t /\
    launches t = List.length parts /\
    closes t = launchedCount env 0 (List.length parts).
Proof.
  intros Hlen.
  destruct (@forEachPart_invariant toLowerCase env
              (fun j _ _ st => exists t, trace st = trace s ++ t /\
                 launches t = j /\ closes t = launchedCount env 0 j)
              parts 0%nat ([], []) s) as (s1 & rs & es & E & t & Et & Lt & Ct).
  { exists []. rewrite app_nil_r. auto. }
  { intros j part acc st _ (t & Et & Lt & Ct).
    destruct (processPart_calls (env j) part acc st) as (t' & Et' & Lt' & Ct').
    destruct (processPart_cases toLowerCase (env j) part acc st)
      as (st' & [(ti & ai & E & _) | (E & _)]);
      rewrite E in *; cbn [fst] in Et'; do 3 eexists; (split; [reflexivity|]);
      exists (t ++ t');
      rewrite Et', Et, app_assoc, launches_app, closes_app, Lt, Lt', Ct, Ct',
              launchedCount_S;
      (split; [reflexivity | split; [lia | reflexivity]]). }
  rewrite (@bulkProcess_loop toLowerCase env parts s s1 rs es Hlen E). cbn [fst].
  exists t. auto.
Qed.

End Browsers.

(** Witness of [bulkProcess_browsers]. *)
Lemma bulkProcess_browsers_witness :
  exists t,
    trace (fst (bulkProcess Sample.toLowerCaseAscii Sample.world
                  (Some (Array Sample.threeParts)) initial)) = trace initial ++ t /\
    launches t = List.length Sample.threeParts /\
    closes t = launchedCount Sample.world 0 (List.length Sample.threeParts).
Proof.
  apply (@bulkProcess_browsers Sample.toLowerCaseAscii Sample.world Sample.threeParts initial).
  cbn. lia.
Defined.

(** ** More on the upload *)

Lemma trimCell_clean c :
  isPartCell c = true ->
  trimCell c <> [] /\ startsClean (trimCell c) /\ endsClean (trimCell c).
Proof.
  destruct c as [x|]; [|discriminate]. cbn [isPartCell trimCell]. intros H.
  apply andb_true_iff in H. destruct H as [_ H]. apply Nat.ltb_lt in H.
  destruct (trim_spec x) as (_ & C1 & C2 & _).
  split; [|split; assumption].
  intros E. rewrite E in H. cbn in H. lia.
Qed.

Lemma extractPartNumbers_clean rows :
  Forall (fun p => p <> [] /\ startsClean p /\ endsClean p) (extractPartNumbers rows).
Proof.
  apply Forall_forall. intros p H. unfold extractPartNumbers in H.
  apply (@In_slice0 _ 10), in_map_iff in H. destruct H as (c & <- & Hc).
  apply filter_In in Hc. destruct Hc as [_ Hc]. now apply trimCell_clean.
Qed.

(** X14. What a successful upload returns: between one and ten part
    numbers, the first ten valid cells of the first column in the
    order of the sheet, each trimmed and not empty, with [count] their
    number. *)
Theorem bulkUpload_result env s result :
  snd (bulkUpload env s) = Normal (Ok result) ->
  up_success result = true /\
  up_count result = List.length (up_partNumbers result) /\
  (1 <= up_count result <= 10)%nat /\
  Forall (fun p => p <> [] /\ startsClean p /\ endsClean p) (up_partNumbers result) /\
  exists rows, sheet env = inr rows /\
    up_partNumbers result
    = firstn 10 (map trimCell (filter isPartCell (map firstCell rows))).
Proof.
  unfold bulkUpload. destruct env as [f sh un cl].
  cbn [file sheet unlink_result cleanup_result]. unfold message_or. run_monad.
  destruct f; cbn [negb snd]; [|discriminate].
  destruct sh as [[m|]|rows]; cbn [snd].
  - destruct cl as [[?|]|[]]; cbn; discriminate.
  - destruct cl as [[?|]|[]]; cbn; discriminate.
  - pose proof (extractPartNumbers_length rows) as L.
    pose proof (extractPartNumbers_clean rows) as C.
    remember (extractPartNumbers rows) as parts eqn:Ep.
    destruct (List.length parts =? 0)%nat eqn:Z; [discriminate|].
    apply Nat.eqb_neq in Z.
    destruct (10 <? List.length parts)%nat; [discriminate|].
    destruct un as [[m|]|[]]; cbn.
    + destruct cl as [[?|]|[]]; cbn; discriminate.
    + destruct cl as [[?|]|[]]; cbn; discriminate.
    + intros [= <-]. cbn [up_success up_count up_partNumbers].
      split; [reflexivity|]. split; [reflexivity|]. split; [lia|].
      split; [exact C|]. exists rows. split; [reflexivity | exact Ep].
Qed.

(** X15. The error answers of the upload: without a file it answers 400
    before touching anything; a sheet without a valid part number is
    answered 400 and the uploaded file is not removed; a sheet that
    cannot be read is answered 500 after one attempt to remove the
    file, whose own failure is swallowed. *)
Theorem bulkUpload_errors env s :
  (file env = false ->
   bulkUpload env s = (s, Normal (Failed 400 (lit "No file uploaded")))) /\
  (forall rows, file env = true -> sheet env = inr rows ->
     filter isPartCell (map firstCell rows) = [] ->
     bulkUpload env s
     = ({| trace := trace s ++ [ReadFile]; browser := browser s |},
        Normal (Failed 400 (lit "No valid part numbers found in the file")))) /\
  (forall m, file env = true -> sheet env = inl (Exn m) ->
     exists msg,
       bulkUpload env s
       = ({| trace := (trace s ++ [ReadFile]) ++ [Unlink]; browser := browser s |},
          Normal (Failed 500 msg))).
Proof.
  unfold bulkUpload. destruct env as [f sh un cl].
  cbn [file sheet unlink_result cleanup_result]. unfold message_or. run_monad.
  split; [|split].
  - intros ->. reflexivity.
  - intros rows -> -> E. cbn [negb]. unfold extractPartNumbers. rewrite E. reflexivity.
  - intros m -> ->. cbn [negb]. destruct cl as [[?|]|[]]; cbn; eexists; reflexivity.
Qed.

(** Witness of [bulkUpload_result]. *)
Lemma bulkUpload_result_witness :
  exists result,
    snd (bulkUpload Sample.upload initial) = Normal (Ok result) /\
    up_success result = true /\
    up_count result = List.length (up_partNumbers result) /\
    (1 <= up_count result <= 10)%nat /\
    Forall (fun p => p <> [] /\ startsClean p /\ endsClean p) (up_partNumbers result) /\
    exists rows, sheet Sample.upload = inr rows /\
      up_partNumbers result
      = firstn 10 (map trimCell (filter isPartCell (map firstCell rows))).
Proof.
  eexists. split; [vm_compute; reflexivity|].
  apply (@bulkUpload_result Sample.upload initial). vm_compute. reflexivity.
Defined.

(** Witness of [bulkUpload_errors]. *)
Lemma bulkUpload_errors_witness :
  file Sample.unreadable = true /\
  sheet Sample.unreadable = inl (Exn (Some (lit "File is password-protected"))) /\
  exists msg,
    bulkUpload Sample.unreadable initial
    = ({| trace := (trace initial ++ [ReadFile]) ++ [Unlink]; browser := browser initial |},
       Normal (Failed 500 msg)).
Proof.
  split; [reflexivity|]. split; [reflexivity|].
  apply (proj2 (proj2 (bulkUpload_errors Sample.unreadable initial))
           (Some (lit "File is password-protected"))); reflexivity.
Defined.

(** ** More on the export *)

(** X16. The sheet of an export: the route answers with a sheet only for
    the format "excel"; the sheet starts with the header and has one
    row of seven columns for each result, in the order of the
    results, with the original part first and the status last. *)
Theorem bulkExport_sheet format rs s sheet :
  snd (bulkExport format (Some (inr rs)) s) = Normal (Ok sheet) ->
  format = lit "excel" /\
  List.length sheet = S (List.length rs) /\
  Forall (fun row => List.length row = 7%nat) sheet /\
  hd_error sheet = Some exportHeader /\
  forall i r, nth_error rs i = Some r ->
    exists row, nth_error sheet (S i) = Some row /\
      nth_error row 0 = Some (originalPart r) /\
      nth_error row 6 = Some (status r).
Proof.
  unfold bulkExport. run_monad. cbn [snd].
  unfold string_eqb. destruct (list_eq_dec N.eq_dec format (lit "excel")) as [->|N];
    cbn [snd]; [|discriminate].
  intros [= <-]. split; [reflexivity|]. unfold excelData.
  split; [cbn; now rewrite length_map|].
  split; [constructor; [reflexivity|]; apply Forall_forall; intros row H;
          apply in_map_iff in H; destruct H as (r & <- & _); reflexivity|].
  split; [reflexivity|].
  intros i r H. exists (exportRow r). cbn [nth_error].
  split; [now apply map_nth_error | split; reflexivity].
Qed.

(** Witness of [bulkExport_sheet]. *)
Lemma bulkExport_sheet_witness :
  exists sheet,
    snd (bulkExport (lit "excel") (Some (inr [Sample.okResult])) initial) = Normal (Ok sheet) /\
    List.length sheet = 2%nat /\
    Forall (fun row => List.length row = 7%nat) sheet.
Proof.
  eexists. split; [vm_compute; reflexivity|].
  destruct (@bulkExport_sheet (lit "excel") [Sample.okResult] initial
              (excelData [Sample.okResult])) as (_ & L & F & _).
  - vm_compute. reflexivity.
  - split; [exact L | exact F].
Defined.

(** ** The test route *)

Section TestRoute.

Variable toLowerCase : js_string -> js_string.


End TestRoute.


(** ** The single lookup *)

Section Lookup.

Variable toLowerCase : js_string -> js_string.
Variable marked : js_string -> thrown + js_string.

(** X18. The single lookup checks its configuration and its input before
    any call: without the model credential it answers 500, without a
    part number 400, and the state is untouched. *)
Theorem alternatives_validation env partNumber s :
  (configured (lk_OPENAI_API_KEY env) = false ->
   alternatives toLowerCase marked env partNumber s
   = (s, Normal (Failed 500 (lit "Server is not configured with OPENAI_API_KEY")))) /\
  (configured (lk_OPENAI_API_KEY env) = true -> given partNumber = false ->
   alternatives toLowerCase marked env partNumber s
   = (s, Normal (Failed 400 (lit "Part number is required")))).
Proof.
  unfold alternatives. split.
  - intros ->. reflexivity.
  - intros -> ->. reflexivity.
Qed.


End Lookup.

(** Witness of [alternatives_validation]. *)
Lemma alternatives_validation_witness :
  configured (lk_OPENAI_API_KEY (Sample.lookup Sample.chatLimited)) = true /\
  given None = false /\
  alternatives Sample.toLowerCaseAscii Sample.paragraph
    (Sample.lookup Sample.chatLimited) None initial
  = (initial, Normal (Failed 400 (lit "Part number is required"))).
Proof.
  split; [reflexivity|]. split; [reflexivity|].
  apply (proj2 (alternatives_validation Sample.toLowerCaseAscii Sample.paragraph
                  (Sample.lookup Sample.chatLimited) None initial)); reflexivity.
Defined.


(** ** The post-processing of the rendered HTML *)

Lemma lowerAscii_lt c : c <> 60 -> (lowerAscii 60 =? lowerAscii c) = false.
Proof.
  intros H. apply N.eqb_neq. unfold lowerAscii. cbn.
  destruct ((65 <=? c) && (c <=? 90)) eqn:E.
  - apply andb_true_iff in E. destruct E as [E1 E2].
    apply N.leb_le in E1. apply N.leb_le in E2. lia.
  - congruence.
Qed.

Lemma stripScripts_tagFree a s :
  tagFree a = true -> stripScripts (a ++ s) = a ++ stripScripts s.
Proof.
  unfold stripScripts, tagFree. induction a as [|c a IH]; [reflexivity|].
  cbn [forallb app]. intros H. apply andb_true_iff in H. destruct H as [Hc Ha].
  apply negb_true_iff, N.eqb_neq in Hc.
  cbn [stripScriptsFrom]. unfold scriptElement.
  change (lit "<script") with (60 :: lit "script").
  cbn [startsWithCI]. rewrite (@lowerAscii_lt c Hc). cbn [andb].
  now rewrite IH.
Qed.

Lemma replaceAll_tagFree p rep a s :
  tagFree a = true ->
  replaceAll (60 :: p) rep (a ++ s) = a ++ replaceAll (60 :: p) rep s.
Proof.
  unfold replaceAll, tagFree. induction a as [|c a IH]; [reflexivity|].
  cbn [forallb app]. intros H. apply andb_true_iff in H. destruct H as [Hc Ha].
  apply negb_true_iff, N.eqb_neq in Hc.
  cbn [replaceAllFrom startsWith].
  assert (E : (60 =? c) = false) by (apply N.eqb_neq; congruence).
  rewrite E. cbn [andb]. now rewrite IH.
Qed.

(** X20. A text without [<] leaves the post-processing of the comparison
    as it came. *)
Theorem decorate_plain_text (s : js_string) :
  tagFree s = true -> decorate s = s.
Proof.
  intros H. unfold decorate.
  rewrite <- (app_nil_r s).
  rewrite (@stripScripts_tagFree s [] H).
  change (lit "<table") with (60 :: lit "table").
  change (lit "<tr") with (60 :: lit "tr").
  change (lit "<td") with (60 :: lit "td").
  change (lit "<th") with (60 :: lit "th").
  now rewrite !(@replaceAll_tagFree _ _ s [] H).
Qed.


(** Witness of [decorate_plain_text]. *)
Lemma decorate_plain_text_witness :
  tagFree (lit "No differences found.") = true /\
  decorate (lit "No differences found.") = lit "No differences found.".
Proof.
  split; [reflexivity|].
  apply (@decorate_plain_text (lit "No differences found.")). reflexivity.
Defined.


(** ** The comparison *)

Section Comparison.

Variable marked : js_string -> thrown + js_string.

(** X22. The comparison checks its configuration and its input before any
    call: without the model credential it answers 500, without both
    part numbers 400, and the state is untouched. *)
Theorem compare_validation env partA partB s :
  (configured (cmp_OPENAI_API_KEY env) = false ->
   compare marked env partA partB s
   = (s, Normal (Failed 500 (lit "Server is not configured with OPENAI_API_KEY")))) /\
  (configured (cmp_OPENAI_API_KEY env) = true ->
   given partA && given partB = false ->
   compare marked env partA partB s
   = (s, Normal (Failed 400 (lit "Both partA and partB are required")))).
Proof.
  unfold compare. split.
  - intros ->. reflexivity.
  - intros -> H. cbn [negb].
    destruct (given partA), (given partB); try discriminate H; reflexivity.
Qed.

(** X23. With the credential and both part numbers the comparison sends one
    request to the model endpoint and nothing else.  An answer that is
    not 2xx is passed on with its own status code and the upstream
    message, or "OpenAI API error"; a 2xx answer without a text is
    answered 502; a text is rendered and decorated. *)
Theorem compare_answers env a b s resp :
  configured (cmp_OPENAI_API_KEY env) = true ->
  truthy a = true -> truthy b = true ->
  cmp_chat env = inr resp ->
  trace (fst (compare marked env (Some a) (Some b) s)) = trace s ++ [OpenAICompare a b] /\
  (chat_ok resp = false ->
   (forall em reply, chat_json resp = inr (Body em reply) ->
      snd (compare marked env (Some a) (Some b) s)
      = Normal (Failed (chat_status resp) (messageOr em (lit "OpenAI API error")))) /\
   (forall e, chat_json resp = inl e ->
      snd (compare marked env (Some a) (Some b) s)
      = Normal (Failed (chat_status resp) (lit "OpenAI API error")))) /\
  (chat_ok resp = true ->
   forall body, chat_json resp = inr body ->
     match body with
     | Body _ (ContentText (c :: cs)) =>
         forall html, marked (c :: cs) = inr html ->
           snd (compare marked env (Some a) (Some b) s) = Normal (Ok (decorate html))
     | _ =>
         snd (compare marked env (Some a) (Some b) s)
         = Normal (Failed 502 (lit "Empty response from model"))
     end).
Proof.
  intros Hk Ha Hb Hc. unfold compare, message_or. rewrite Hk. cbn [negb given].
  rewrite Ha, Hb. cbn [negb orb]. run_monad. rewrite Hc.
  split; [|split].
  - destruct (chat_ok resp); cbn [negb];
      destruct (chat_json resp) as [[m|]|[|em [| |[|c cs]]]]; cbn; try reflexivity;
      destruct (marked (c :: cs)) as [[m|]|html]; reflexivity.
  - intros ->. cbn [negb]. split.
    + intros em reply ->. reflexivity.
    + intros e ->. reflexivity.
  - intros -> body ->. cbn [negb].
    destruct body as [|em [| |[|c cs]]]; cbn; try reflexivity.
    intros html ->. reflexivity.
Qed.

End Comparison.

(** Witness of [compare_validation]. *)
Lemma compare_validation_witness :
  configured (cmp_OPENAI_API_KEY (Sample.comparison Sample.chatLimited)) = true /\
  given (Some (lit "LM317")) && given None = false /\
  compare Sample.paragraph (Sample.comparison Sample.chatLimited)
    (Some (lit "LM317")) None initial
  = (initial, Normal (Failed 400 (lit "Both partA and partB are required"))).
Proof.
  split; [reflexivity|]. split; [reflexivity|].
  apply (proj2 (compare_validation Sample.paragraph (Sample.comparison Sample.chatLimited)
                  (Some (lit "LM317")) None initial)); reflexivity.
Defined.

(** Witness of [compare_answers]. *)
Lemma compare_answers_witness :
  snd (compare Sample.paragraph (Sample.comparison Sample.chatLimited)
         (Some (lit "LM317")) (Some (lit "LM350")) initial)
  = Normal (Failed 429 (lit "Rate limit reached")).
Proof.
  destruct (@compare_answers Sample.paragraph (Sample.comparison Sample.chatLimited)
              (lit "LM317") (lit "LM350") initial
              {| chat_ok := false; chat_status := 429;
                 chat_statusText := lit "Too Many Requests";
                 chat_json := inr (Body (Some (lit "Rate limit reached")) NoChoices) |}
              eq_refl eq_refl eq_refl eq_refl) as (_ & H & _).
  exact (proj1 (H eq_refl) (Some (lit "Rate limit reached")) NoChoices eq_refl).
Defined.

(** ** Witnesses on reply lines *)

(** Witness of [parseLine_drops]: an indented line. *)
Lemma parseLine_drops_witness :
  parseLine (lit " 1. LM317T - Adjustable regulator - STMicroelectronics") = None.
Proof.
  apply (@parseLine_drops (lit " 1. LM317T - Adjustable regulator - STMicroelectronics")).
  left. reflexivity.
Defined.


(** ** What a part of a batch gets *)

Section PartResultOf.

Variable toLowerCase : js_string -> js_string.

Lemma guarded_scrape env part s :
  readable (close_result env) = true ->
  snd (guarded (scrapeTICrossReference toLowerCase env part) s)
  = Normal (scraped toLowerCase env).
Proof.
  unfold guarded, scraped. scrape_cases env; intros H; try discriminate; reflexivity.
Qed.

Lemma guarded_googleSearch env part s :
  readable (google_fetch env) = true ->
  match google_fetch env with inr r => readable (g_json r) | inl _ => true end = true ->
  exists items, snd (guarded (googleSearch env part) s) = Normal items.
Proof.
  intros Hf Hj. rewrite guarded_run.
  pose proof (@googleSearch_throws env part s Hf Hj) as T.
  destruct (googleSearch env part s) as [s' [x|[m|]]]; cbn [snd] in *;
    [eauto | eauto | congruence].
Qed.

Lemma guarded_synthesize env part items ti s :
  readable (openai_fetch env) = true ->
  match openai_fetch env with inr r => readable (ai_json r) | inl _ => true end = true ->
  snd (guarded (synthesize env part items ti) s) = Normal (synthesized env).
Proof.
  unfold guarded, synthesize, synthesized. intros Hf Hj. run_monad.
  destruct (openai_fetch env) as [[m|]|r]; cbn [snd readable] in *;
    try discriminate; [reflexivity|].
  destruct (ai_ok r); cbn [snd]; [|reflexivity].
  destruct (ai_json r) as [[m|]|[| |content]]; cbn [snd readable] in *;
    try discriminate; reflexivity.
Qed.

(** X24. What a part of a batch gets when no call rejects with [null] or
    [undefined]: a result marked "success" holding the first
    alternative of the extractor if every step of it and the shutdown
    of the browser succeeded, and the first three entries parsed from
    the reply if the model endpoint answered 2xx with a text; a source
    that fails contributes nothing and fails nothing. *)
Theorem processPart_result env part acc s :
  partReadable env = true ->
  exists s',
    processPart toLowerCase env part acc s
    = (s', Normal (fst acc ++ [successResult part (scraped toLowerCase (puppeteer env))
                                             (synthesized (openai env))],
                   snd acc)).
Proof.
  intros Hr. unfold partReadable in Hr.
  repeat (apply andb_true_iff in Hr; destruct Hr as [Hr ?]).
  unfold processPart.
  repeat match goal with
  | |- context [try_catch ?m (fun e => bind (log_message e) (fun _ => ret []))] =>
      change (try_catch m (fun e => bind (log_message e) (fun _ => ret [])))
        with (guarded m)
  end.
  rewrite try_catch_run, bind_run.
  pose proof (@guarded_scrape (puppeteer env) part s Hr) as G1.
  destruct (guarded (scrapeTICrossReference toLowerCase (puppeteer env) part) s)
    as [s1 c1]. cbn [snd] in G1. subst c1. cbv beta iota.
  rewrite bind_run.
  destruct (@guarded_googleSearch (google env) part s1) as (items & G2); auto.
  destruct (guarded (googleSearch (google env) part) s1) as [s2 c2].
  cbn [snd] in G2. subst c2. cbv beta iota.
  rewrite bind_run.
  match goal with
  | |- context [try_catch ?m (fun e => bind (log_message e) (fun _ => ret []))] =>
      change (try_catch m (fun e => bind (log_message e) (fun _ => ret [])))
        with (guarded m)
  end.
  pose proof (@guarded_synthesize (openai env) part items
                (scraped toLowerCase (puppeteer env)) s2) as G3.
  destruct (guarded (synthesize (openai env) part items
                       (scraped toLowerCase (puppeteer env))) s2) as [s3 c3].
  cbn [snd] in G3. rewrite G3 by assumption. cbv beta iota.
  exists s3. reflexivity.
Qed.

End PartResultOf.

(** Witness of [processPart_result]. *)
Lemma processPart_result_witness :
  exists s',
    processPart Sample.toLowerCaseAscii (Sample.world 1) (lit "TPS7A49")
      (@nil PartResult, @nil PartError) initial
    = (s', Normal ([successResult (lit "TPS7A49")
                      (scraped Sample.toLowerCaseAscii (puppeteer (Sample.world 1)))
                      (synthesized (openai (Sample.world 1)))], [])).
Proof.
  apply (@processPart_result Sample.toLowerCaseAscii (Sample.world 1) (lit "TPS7A49")
           (@nil PartResult, @nil PartError) initial).
  reflexivity.
Defined.

(** ** The error answers of the export *)

(** X25. The export never calls anything and checks in this order: without
    the [results] parameter it answers 400; a parameter that cannot be
    parsed is answered 500 with the parser's message, or "Export
    failed", whatever the format; a format other than "excel" is
    answered 400. *)
Theorem bulkExport_errors format results s :
  fst (bulkExport format results s) = s /\
  (results = None ->
   snd (bulkExport format results s) = Normal (Failed 400 (lit "Results data is required"))) /\
  (forall m, results = Some (inl (Exn m)) ->
   snd (bulkExport format results s)
   = Normal (Failed 500 (match m with
                         | Some x => or_else x (lit "Export failed")
                         | None => lit "Export failed"
                         end))) /\
  (forall rs, results = Some (inr rs) -> format <> lit "excel" ->
   exists msg, snd (bulkExport format results s) = Normal (Failed 400 msg)).
Proof.
  unfold bulkExport, message_or, string_eqb.
  destruct results as [[[m|]|rs]|];
    [| | destruct (list_eq_dec N.eq_dec format (lit "excel")) as [E|E] |];
    (split; [reflexivity|split; [|split]]);
    try (intros; discriminate);
    try (intros ? [= <-]; reflexivity);
    try reflexivity.
  - intros ? _ N. contradiction.
  - intros ? _ _. eexists. reflexivity.
Qed.

(** Witness of [bulkExport_errors]. *)
Lemma bulkExport_errors_witness :
  snd (bulkExport (lit "csv") (Some (inr [Sample.okResult])) initial)
  <> Normal (Ok (excelData [Sample.okResult])) /\
  exists msg,
    snd (bulkExport (lit "csv") (Some (inr [Sample.okResult])) initial)
    = Normal (Failed 400 msg).
Proof.
  split; [vm_compute; discriminate|].
  apply (proj2 (proj2 (proj2 (bulkExport_errors (lit "csv")
                                (Some (inr [Sample.okResult])) initial)))
           [Sample.okResult] eq_refl).
  vm_compute. discriminate.
Defined.
